(** * JetBrains project launcher: a shallow embedding of [main.py]

    The extension answers a launcher query with the recently opened
    projects of the installed JetBrains editors.  This development embeds
    the program's logic ([Editor._find_binary], [Editor.list_projects],
    [Editor._parse_recent_projects], [KeywordQueryEventListener.__init__]
    and [KeywordQueryEventListener.on_event]) together with the fragments
    of the Python standard library it calls, and proves properties of it.

    Conventions.
    - Python [str] is embedded as [string] (one character per byte), Python
      [int] as [Z], a [dict] with string keys as [gmap string _].
    - A Python computation that may raise is a value of [result]: either
      [Ok v] or [Raise e] with the exception class [e].
    - The operating system (home directory, filesystem tree, platform) and
      the regular-expression engine are gathered in the record [Env]. *)

From Stdlib Require Import ZArith Ascii String.
From stdpp Require Import base option list gmap strings sorting.

Set Warnings "-register-all".
Local Open Scope Z_scope.

(** ** Python exceptions and the error monad *)

Module Py.

(** The exception classes that the modelled code and library fragments can
    raise. *)
Inductive exn : Set :=
  | ParseError            (* xml.etree.ElementTree.ParseError *)
  | FileNotFoundError
  | NotADirectoryError
  | IsADirectoryError
  | ValueError
  | KeyError
  | RuntimeError
  | LookupError
  | re_error.             (* re.error *)

Global Instance exn_eq_dec : EqDecision exn.
Proof. solve_decision. Defined.

Inductive result (A : Type) : Type :=
  | Ok (a : A)
  | Raise (e : exn).
Global Arguments Ok {A} a.
Global Arguments Raise {A} e.

Global Instance result_eq_dec {A} `{EqDecision A} : EqDecision (result A).
Proof. solve_decision. Defined.

Global Instance result_ret : MRet result := λ A a, Ok a.
Global Instance result_bind : MBind result := λ A B f m,
  match m with
  | Ok a => f a
  | Raise e => Raise e
  end.
Global Instance result_fmap : FMap result := λ A B f m,
  match m with
  | Ok a => Ok (f a)
  | Raise e => Raise e
  end.

(** [try: body except (classes): handler]. *)
Definition try_except {A} (body : result A) (caught : exn → bool)
    (handler : result A) : result A :=
  match body with
  | Ok a => Ok a
  | Raise e => if caught e then handler else Raise e
  end.

(** [d[k]] on a dict: [KeyError] when the key is absent. *)
Definition getitem {V} (d : gmap string V) (k : string) : result V :=
  match d !! k with
  | Some v => Ok v
  | None => Raise KeyError
  end.

(** A list comprehension [[x for x in l if f(x)]] whose condition may raise:
    the elements are tested left to right and the first exception aborts. *)
Fixpoint filterM {A} (f : A → result bool) (l : list A) : result (list A) :=
  match l with
  | [] => Ok []
  | x :: l' =>
      b ← f x;
      r ← filterM f l';
      Ok (if b : bool then x :: r else r)
  end.

(** A loop [for x in l: ...] building one value per element, aborted by the
    first exception. *)
Fixpoint mapM {A B} (f : A → result B) (l : list A) : result (list B) :=
  match l with
  | [] => Ok []
  | x :: l' =>
      y ← f x;
      r ← mapM f l';
      Ok (y :: r)
  end.

(** *** [str.replace(old, new)]

    All non-overlapping occurrences of [old], found left to right.  [skip]
    counts the characters of an occurrence still to be passed over. *)
Fixpoint replace_from (old new : string) (skip : nat) (s : string) : string :=
  match s with
  | EmptyString => EmptyString
  | String c s' =>
      match skip with
      | S k => replace_from old new k s'
      | O =>
          if String.prefix old s
          then new +:+ replace_from old new (Nat.pred (String.length old)) s'
          else String c (replace_from old new O s')
      end
  end.

Fixpoint intersperse_str (new s : string) : string :=
  match s with
  | EmptyString => new
  | String c s' => new +:+ String c (intersperse_str new s')
  end.

Definition str_replace (old new s : string) : string :=
  match old with
  | EmptyString => intersperse_str new s
  | _ => replace_from old new O s
  end.

(** *** [int(s)] for a [str] argument, base 10

    CPython strips white space on both sides, reads an optional sign and
    then decimal digits, where single underscores may separate digits.
    Anything else is a [ValueError], and so is a numeral of more digits
    than [sys.int_max_str_digits] (4300 unless reconfigured).  White space
    and digits are the ASCII ones. *)
Definition is_space (c : ascii) : bool :=
  let n := nat_of_ascii c in
  ((9 <=? n)%nat && (n <=? 13)%nat) || (n =? 32)%nat.

Definition digit_value (c : ascii) : option Z :=
  let n := nat_of_ascii c in
  if ((48 <=? n)%nat && (n <=? 57)%nat) then Some (Z.of_nat (n - 48)) else None.

Definition is_underscore (c : ascii) : bool := (nat_of_ascii c =? 95)%nat.

Fixpoint lstrip (l : list ascii) : list ascii :=
  match l with
  | c :: l' => if is_space c then lstrip l' else l
  | [] => []
  end.

Definition strip (l : list ascii) : list ascii :=
  rev (lstrip (rev (lstrip l))).

(** Digits after the first one: [acc] is the value read so far and [n] the
    number of digits read so far. *)
Fixpoint more_digits (acc : Z) (n : nat) (l : list ascii) : option (Z * nat) :=
  match l with
  | [] => Some (acc, n)
  | c :: l' =>
      if is_underscore c then
        match l' with
        | d :: l'' =>
            match digit_value d with
            | Some v => more_digits (10 * acc + v) (S n) l''
            | None => None
            end
        | [] => None
        end
      else
        match digit_value c with
        | Some v => more_digits (10 * acc + v) (S n) l'
        | None => None
        end
  end.

Definition int_max_str_digits : nat := 4300.

Definition unsigned_int (l : list ascii) : result Z :=
  match l with
  | c :: l' =>
      match digit_value c with
      | Some v =>
          match more_digits v 1 l' with
          | Some (z, n) =>
              if (n <=? int_max_str_digits)%nat then Ok z else Raise ValueError
          | None => Raise ValueError
          end
      | None => Raise ValueError
      end
  | [] => Raise ValueError
  end.

Definition int (s : string) : result Z :=
  match strip (list_ascii_of_string s) with
  | c :: l' =>
      if (nat_of_ascii c =? 45)%nat then Z.opp <$> unsigned_int l'
      else if (nat_of_ascii c =? 43)%nat then unsigned_int l'
      else unsigned_int (c :: l')
  | [] => Raise ValueError
  end.

(** *** [l[:n]] *)
Definition slice_to {A} (n : Z) (l : list A) : list A :=
  if 0 <=? n then take (Z.to_nat n) l
  else take (Z.to_nat (Z.of_nat (length l) + n)) l.

(** *** [sorted] and [list.sort]

    Python's sort is stable, so its result is determined by the order
    alone; it is modelled by a stable insertion sort.  [le x y] says that
    [x] may stand before [y]. *)
Section sort.
Context {A : Type} (le : A → A → bool).

Fixpoint insert_sorted (x : A) (l : list A) : list A :=
  match l with
  | [] => [x]
  | y :: l' => if le x y then x :: y :: l' else y :: insert_sorted x l'
  end.

Fixpoint sorted (l : list A) : list A :=
  match l with
  | [] => []
  | x :: l' => insert_sorted x (sorted l')
  end.

End sort.

(** [l.sort(key=key, reverse=True)] with integer keys. *)
Definition sort_by_key_reverse {A} (key : A → Z) (l : list A) : list A :=
  sorted (λ x y, key y <=? key x) l.

End Py.

Import Py.

(** ** [pathlib]: pure POSIX paths *)

Module Pathlib.

(** A [PurePosixPath]: [root] is [""], ["/"] or ["//"], and [parts] are the
    components below it (the Python attribute [parts] also lists the root). *)
Record PurePath : Set := { root : string; parts : list string }.

Global Instance PurePath_eq_dec : EqDecision PurePath.
Proof. solve_decision. Defined.

Definition slash : ascii := "/"%char.

(** [s.split("/")] *)
Fixpoint split_slash (s : string) : list string :=
  match s with
  | EmptyString => [EmptyString]
  | String c s' =>
      if Ascii.eqb c slash then EmptyString :: split_slash s'
      else match split_slash s' with
           | h :: t => String c h :: t
           | [] => [String c EmptyString]
           end
  end.

Fixpoint leading_slashes (s : string) : nat :=
  match s with
  | String c s' => if Ascii.eqb c slash then S (leading_slashes s') else O
  | EmptyString => O
  end.

Definition is_component (c : string) : bool :=
  negb (String.eqb c "") && negb (String.eqb c ".").

(** [Path(s)]: empty and ["."] components are dropped; exactly two leading
    slashes are kept as the root ["//"]. *)
Definition parse_path (s : string) : PurePath :=
  {| root := match leading_slashes s with
             | O => ""
             | 2%nat => "//"
             | _ => "/"
             end;
     parts := filter (λ c, is_component c = true) (split_slash s) |}.

Fixpoint join_slash (l : list string) : string :=
  match l with
  | [] => ""
  | [c] => c
  | c :: l' => c +:+ "/" +:+ join_slash l'
  end.

(** [str(p)] *)
Definition path_str (p : PurePath) : string :=
  match root p, parts p with
  | EmptyString, [] => "."
  | r, cs => r +:+ join_slash cs
  end.

(** [p.name] *)
Definition path_name (p : PurePath) : string := List.last (parts p) "".

Definition is_absolute (p : PurePath) : bool := negb (String.eqb (root p) "").

(** [p / s] for a [str] segment [s]. *)
Definition joinpath (p : PurePath) (s : string) : PurePath :=
  let q := parse_path s in
  if is_absolute q then q
  else {| root := root p; parts := parts p ++ parts q |}.

(** Paths are ordered as Python orders the lists of their parts (root
    first): lexicographically, strings being compared by character code. *)
Fixpoint lex_compare {A} (cmp : A → A → comparison) (l1 l2 : list A)
    : comparison :=
  match l1, l2 with
  | [], [] => Eq
  | [], _ :: _ => Lt
  | _ :: _, [] => Gt
  | x :: l1', y :: l2' =>
      match cmp x y with
      | Eq => lex_compare cmp l1' l2'
      | c => c
      end
  end.

Definition str_codes (s : string) : list N :=
  N_of_ascii <$> list_ascii_of_string s.

Definition str_compare (s t : string) : comparison :=
  lex_compare N.compare (str_codes s) (str_codes t).

Definition str_leb (s t : string) : bool :=
  match str_compare s t with Gt => false | _ => true end.

Definition cparts (p : PurePath) : list string :=
  if is_absolute p then root p :: parts p else parts p.

Definition path_compare (p q : PurePath) : comparison :=
  lex_compare str_compare (cparts p) (cparts q).

Definition path_leb (p q : PurePath) : bool :=
  match path_compare p q with Gt => false | _ => true end.

End Pathlib.

Import Pathlib.

(** ** [xml.etree.ElementTree]: element trees and the paths used *)

Module ElementTree.

Inductive element : Type :=
  | Element (tag : string) (attrib : gmap string string)
            (children : list element).

Definition tag (e : element) : string :=
  match e with Element t _ _ => t end.
Definition attrib (e : element) : gmap string string :=
  match e with Element _ a _ => a end.
Definition children (e : element) : list element :=
  match e with Element _ _ cs => cs end.

(** [e.iter()]: the element itself, then its descendants in document
    order. *)
Fixpoint iter (e : element) : list element :=
  match e with
  | Element _ _ cs => e :: concat (map iter cs)
  end.

(** The step [//tag] of a path applied to one element: its proper
    descendants bearing that tag, in document order. *)
Definition descendants (t : string) (e : element) : list element :=
  filter (λ d, tag d = t) (concat (map iter (children e))).

(** [.//component[@name='RecentProjectsManager']//entry[@key]] from the
    root: each selected component contributes its [entry] descendants that
    bear a [key] attribute; nothing removes an entry reached through two
    nested components. *)
Definition findall_entries (r : element) : list element :=
  let components :=
    filter (λ c, attrib c !! "name" = Some "RecentProjectsManager")
           (descendants "component" r) in
  c ← components;
  filter (λ e, is_Some (attrib e !! "key")) (descendants "entry" c).

(** All matches of [.//option[@name='projectOpenTimestamp']] below an
    entry, and [find], which returns the first of them. *)
Definition findall_timestamp (e : element) : list element :=
  filter (λ o, attrib o !! "name" = Some "projectOpenTimestamp")
         (descendants "option" e).

Definition find_timestamp (e : element) : option element :=
  head (findall_timestamp e).

End ElementTree.

Import ElementTree.

(** ** The operating system and the regular-expression engine *)

(** What the bytes of a regular file are to the XML parser:
    - [Xml r]: a well-formed document in an encoding that the parser reads,
      with root element [r];
    - [NotXml]: bytes at which the parser reports a syntax error (a
      zero-byte file, text that is not XML, a truncated document);
    - [BadEncoding multi_byte]: bytes whose XML declaration names an
      encoding that the parser does not read, either a multi-byte one such
      as [shift_jis] or a name that no codec bears.  The parser gives up at
      the declaration, whatever follows it. *)
Inductive content : Type :=
  | NotXml
  | Xml (r : element)
  | BadEncoding (multi_byte : bool).

(** A filesystem tree.  Symbolic links, permissions and the limits on the
    length of names are not modelled: a lookup fails with [ENOENT] or
    [ENOTDIR] only. *)
Inductive node : Type :=
  | File (c : content)
  | Dir (entries : list (string * node)).

Inductive errno : Set := ENOENT | ENOTDIR.

(** - [home]: the current user's home directory, as [os.path.expanduser]
      determines it; [user_home] gives the home of a named user.
    - [cwd]: the components of the working directory; [fs]: the entries of
      the root directory.
    - [platform]: [sys.platform]; [plugin_dir]: the directory of [main.py].
    - [re_valid pattern]: whether [re] compiles the pattern;
      [re_found pattern s]: whether [re.search(pattern, s, re.IGNORECASE)]
      finds a match, for a pattern that compiles. *)
Record Env : Type := {
  home : string;
  user_home : string → option string;
  cwd : list string;
  fs : list (string * node);
  platform : string;
  plugin_dir : PurePath;
  re_valid : string → bool;
  re_found : string → string → bool;
}.

Module OS.

Definition child (name : string) (es : list (string * node)) : option node :=
  snd <$> List.find (λ kv, String.eqb (fst kv) name) es.

(** Path resolution from the directory [cur]; [above] holds its ancestors,
    nearest first, so that [".."] can climb (the root is its own parent). *)
Fixpoint walk (above : list node) (cur : node) (cs : list string)
    : errno + node :=
  match cs with
  | [] => inr cur
  | c :: cs' =>
      match cur with
      | File _ => inl ENOTDIR
      | Dir es =>
          if String.eqb c ".." then
            match above with
            | up :: above' => walk above' up cs'
            | [] => walk [] cur cs'
            end
          else
            match child c es with
            | Some n => walk (cur :: above) n cs'
            | None => inl ENOENT
            end
      end
  end.

Definition stat (env : Env) (p : PurePath) : errno + node :=
  if is_absolute p then walk [] (Dir (fs env)) (parts p)
  else walk [] (Dir (fs env)) (cwd env ++ parts p).

(** [p.exists()], [p.is_file()], [p.is_dir()]: [False] on a lookup that
    fails with [ENOENT] or [ENOTDIR].  The methods let any other [OSError]
    through, which the lookups of this tree never produce. *)
Definition path_exists (env : Env) (p : PurePath) : bool :=
  match stat env p with inr _ => true | inl _ => false end.
Definition is_file (env : Env) (p : PurePath) : bool :=
  match stat env p with inr (File _) => true | _ => false end.
Definition is_dir (env : Env) (p : PurePath) : bool :=
  match stat env p with inr (Dir _) => true | _ => false end.

(** [Path.home()], the home directory being known. *)
Definition Path_home (env : Env) : PurePath := parse_path (home env).

Definition starts_with_tilde (s : string) : bool := String.prefix "~" s.

(** [p.expanduser()]: a relative path whose first component starts with a
    tilde has that component replaced by the home directory it names; a
    user without a home directory is a [RuntimeError]. *)
Definition expanduser (env : Env) (p : PurePath) : result PurePath :=
  match parts p with
  | c :: rest =>
      if negb (is_absolute p) && starts_with_tilde c then
        let h := if String.eqb c "~" then Some (home env)
                 else user_home env (String.substring 1 (String.length c) c) in
        match h with
        | Some d =>
            if starts_with_tilde d then Raise RuntimeError
            else let q := parse_path d in
                 Ok {| root := root q; parts := parts q ++ rest |}
        | None => Raise RuntimeError
        end
      else Ok p
  | [] => Ok p
  end.

(** [ElementTree.parse(p).getroot()]: opening the file fails with the
    [OSError] subclass of the failed lookup; a syntax error is a
    [ParseError]; a declared encoding that the parser does not read is a
    [ValueError] when it is a multi-byte one and a [LookupError] when it is
    unknown. *)
Definition ElementTree_parse (env : Env) (p : PurePath) : result element :=
  match stat env p with
  | inl ENOENT => Raise FileNotFoundError
  | inl ENOTDIR => Raise NotADirectoryError
  | inr (Dir _) => Raise IsADirectoryError
  | inr (File NotXml) => Raise ParseError
  | inr (File (Xml r)) => Ok r
  | inr (File (BadEncoding multi_byte)) =>
      Raise (if multi_byte then ValueError else LookupError)
  end.

(** [base.glob(prefix + "*/")] for a relative [prefix] without the pattern
    characters [*], [?] and [[]: the components of the prefix before its
    last slash name a directory below [base] ([glob_parent]), and the
    result lists, in the order of that directory's entries, its
    subdirectories whose name starts with what follows the last slash
    ([glob_stem]).  (The trailing slash of the pattern restricts the result
    to directories.)  [glob_literal] recognises these prefixes. *)
Definition glob_parent (base : PurePath) (prefix : string) : PurePath :=
  {| root := root base;
     parts := parts base ++
              filter (λ c, is_component c = true)
                     (removelast (split_slash prefix)) |}.

Definition glob_stem (prefix : string) : string :=
  List.last (split_slash prefix) "".

Definition glob_literal (prefix : string) : bool :=
  negb (String.prefix "/" prefix) &&
  forallb (λ c, negb (bool_decide (c ∈ list_ascii_of_string "*?[")))
          (list_ascii_of_string prefix).

Definition glob_prefix (env : Env) (base : PurePath) (prefix : string)
    : list PurePath :=
  let dir := glob_parent base prefix in
  match stat env dir with
  | inr (Dir es) =>
      omap (λ kv, match snd kv with
                  | Dir _ =>
                      if String.prefix (glob_stem prefix) (fst kv)
                      then Some {| root := root dir;
                                   parts := parts dir ++ [fst kv] |}
                      else None
                  | File _ => None
                  end) es
  | _ => []
  end.

(** [re.search(pattern, s, re.IGNORECASE)], reduced to its truth value.  A
    pattern is compiled or refused with [re.error]; what else [re] can
    raise on a pattern (a repetition count beyond its limit, exhausted
    recursion) is not modelled. *)
Definition re_search (env : Env) (pattern s : string) : result bool :=
  if re_valid env pattern then Ok (re_found env pattern s)
  else Raise re_error.

End OS.

Import OS.

(** ** The program *)

(** [class Project] *)
Module Project.
Record t : Set := { name : string; path : string; last_opened : Z }.
End Project.

(** [class Editor] *)
Module Editor.

Record t : Set := {
  name : string;
  icon : PurePath;
  config_dir_prefix : string;
  binary : option string;
}.

(** [Editor._find_binary]: the candidates are tried in list order and the
    first one that is a regular file is returned as a string. *)
Fixpoint _find_binary (env : Env) (binaries_path : string)
    (binaries : list string) : result (option string) :=
  match binaries with
  | [] => Ok None
  | binary :: rest =>
      p ← expanduser env (parse_path (binaries_path +:+ "/" +:+ binary));
      if is_file env p then Ok (Some (path_str p))
      else _find_binary env binaries_path rest
  end.

(** The path that [_find_binary] tests for one candidate, and a candidate
    that it passes over. *)
Definition candidate (env : Env) (binaries_path binary : string)
    : result PurePath :=
  expanduser env (parse_path (binaries_path +:+ "/" +:+ binary)).

Definition no_match (env : Env) (binaries_path binary : string) : Prop :=
  ∃ q, candidate env binaries_path binary = Ok q ∧ is_file env q = false.

(** [Editor.__init__] *)
Definition __init__ (env : Env) (name : string) (icon : PurePath)
    (config_dir_prefix binaries_path : string) (binaries : list string)
    : result t :=
  b ← _find_binary env binaries_path binaries;
  Ok {| name := name; icon := icon;
        config_dir_prefix := config_dir_prefix; binary := b |}.

(** Python truthiness of a [str]. *)
Definition truthy (s : string) : bool := negb (String.eqb s "").

(** The body of the loop of [_parse_recent_projects] for one entry: the
    project it appends, if any. *)
Definition entry_project (env : Env) (entry : element)
    : result (option Project.t) :=
  key ← getitem (attrib entry) "key";
  let project_path := str_replace "$USER_HOME$" (path_str (Path_home env)) key in
  let tag_opened := find_timestamp entry in
  let last_opened :=
    match tag_opened with
    | Some o => attrib o !! "value"
    | None => None
    end in
  match last_opened with
  | Some v =>
      if truthy project_path && truthy v then
        n ← int v;
        Ok (Some {| Project.name := path_name (parse_path project_path);
                    Project.path := project_path;
                    Project.last_opened := n |})
      else Ok None
  | None => Ok None
  end.

(** What the loop reads from one entry: its path with the placeholder
    resolved, and the time stamps that its options offer (the loop looks at
    the first option only). *)
Definition resolved_path (env : Env) (entry : element) : string :=
  str_replace "$USER_HOME$" (path_str (Path_home env))
    (default "" (attrib entry !! "key")).





Definition caught_by_parser (e : exn) : bool :=
  match e with
  | ParseError | FileNotFoundError => true
  | _ => false
  end.

(** The loop of [_parse_recent_projects]: the projects appended, in the
    order of the entries. *)
Definition entry_projects (env : Env) (entries : list element)
    : result (list Project.t) :=
  projects ← mapM (entry_project env) entries;
  Ok (omap id (projects : list (option Project.t))).

(** [Editor._parse_recent_projects] *)
Definition _parse_recent_projects (env : Env) (recent_projects_file : PurePath)
    : result (list Project.t) :=
  try_except
    (root ← ElementTree_parse env recent_projects_file;
     let entries := findall_entries root in
     entry_projects env entries)
    caught_by_parser
    (Ok []).

(** The configuration root of [list_projects]. *)
Definition config_dir (env : Env) : PurePath :=
  if String.eqb (platform env) "darwin"
  then joinpath (joinpath (Path_home env) "Library") "Application Support"
  else joinpath (Path_home env) ".config".

(** [sorted(dirs)[-1]] for a list that starts with [d]. *)
Definition latest (d : PurePath) (dirs : list PurePath) : PurePath :=
  List.last (sorted path_leb (d :: dirs)) d.

(** [Editor.list_projects] *)
Definition list_projects (env : Env) (self : t) : result (list Project.t) :=
  let dirs := glob_prefix env (config_dir env) (config_dir_prefix self) in
  match dirs with
  | [] => Ok []
  | d :: dirs' =>
      _parse_recent_projects env
        (joinpath (joinpath (latest d dirs') "options") "recentProjects.xml")
  end.

End Editor.

(** [ExtensionResultItem(name, description, icon, on_enter=RunScriptAction(..))] *)
Record ExtensionResultItem : Set := {
  item_name : string;
  item_description : string;
  item_icon : string;
  item_on_enter : string;
}.

(** [class KeywordQueryEventListener] *)
Module KeywordQueryEventListener.

Record t : Type := {
  preferences : gmap string string;
  editors : list Editor.t;
}.

(** The editors built by [__init__], in source order: name, icon file,
    configuration directory prefix, candidate binaries. *)
Definition registry : list (string * string * string * list string) :=
  [ ("Android Studio", "androidstudio.svg", "Google/AndroidStudio",
     ["studio"; "androidstudio"; "android-studio"; "android-studio-canary";
      "jdk-android-studio"; "android-studio-system-jdk"]);
    ("CLion", "clion.svg", "JetBrains/CLion", ["clion"; "clion-eap"]);
    ("DataGrip", "datagrip.svg", "JetBrains/DataGrip",
     ["datagrip"; "datagrip-eap"]);
    ("DataSpell", "dataspell.svg", "JetBrains/DataSpell",
     ["dataspell"; "dataspell-eap"]);
    ("GoLand", "goland.svg", "JetBrains/GoLand", ["goland"; "goland-eap"]);
    ("IntelliJ IDEA", "idea.svg", "JetBrains/IntelliJIdea",
     ["idea"; "idea.sh"; "idea-ultimate"; "idea-ce-eap"; "idea-ue-eap";
      "intellij-idea-ce"; "intellij-idea-ce-eap";
      "intellij-idea-ue-bundled-jre"; "intellij-idea-ultimate-edition";
      "intellij-idea-community-edition-jre";
      "intellij-idea-community-edition-no-jre"]);
    ("PhpStorm", "phpstorm.svg", "JetBrains/PhpStorm",
     ["phpstorm"; "phpstorm-eap"]);
    ("PyCharm", "pycharm.svg", "JetBrains/PyCharm",
     ["charm"; "pycharm"; "pycharm-eap"]);
    ("Rider", "rider.svg", "JetBrains/Rider", ["rider"; "rider-eap"]);
    ("RubyMine", "rubymine.svg", "JetBrains/RubyMine",
     ["rubymine"; "rubymine-eap"; "jetbrains-rubymine";
      "jetbrains-rubymine-eap"]);
    ("WebStorm", "webstorm.svg", "JetBrains/WebStorm",
     ["webstorm"; "webstorm-eap"]);
    ("RustRover", "rustrover.svg", "JetBrains/RustRover",
     ["rustrover"; "rustrover-eap"]) ].

Definition make_editor (env : Env) (binaries_path : string)
    (d : string * string * string * list string) : result Editor.t :=
  let '(name, icon_file, prefix, binaries) := d in
  Editor.__init__ env name
    (joinpath (joinpath (plugin_dir env) "images") icon_file)
    prefix binaries_path binaries.

Definition installed (e : Editor.t) : bool :=
  match Editor.binary e with Some _ => true | None => false end.

(** [KeywordQueryEventListener.__init__], which runs when the preferences
    are loaded (see [PreferencesEventListener.on_event]). *)
Definition __init__ (env : Env) (preferences : gmap string string) : result t :=
  binaries_path ← getitem preferences "binaries";
  editors ← mapM (make_editor env binaries_path) registry;
  Ok {| preferences := preferences;
        editors := filter (λ e, installed e = true) editors |}.

(** One round of the loop of [on_event]: the pairs that one editor adds. *)
Definition editor_pairs (env : Env) (query : string) (editor : Editor.t)
    : result (list (Editor.t * Project.t)) :=
  projects ← Editor.list_projects env editor;
  let projects :=
    filter (λ p, path_exists env (parse_path (Project.path p)) = true)
           projects in
  projects ← filterM (λ p, re_search env query (Project.name p)) projects;
  Ok (pair editor <$> (projects : list Project.t)).


(** The loop of [on_event], extending [editor_project_pairs]. *)
Fixpoint collect (env : Env) (query : string) (editors : list Editor.t)
    (editor_project_pairs : list (Editor.t * Project.t))
    : result (list (Editor.t * Project.t)) :=
  match editors with
  | [] => Ok editor_project_pairs
  | editor :: rest =>
      pairs ← editor_pairs env query editor;
      collect env query rest (editor_project_pairs ++ pairs)
  end.

Definition pair_key (pair : Editor.t * Project.t) : Z :=
  Project.last_opened (snd pair).

(** [on_event] up to the rendering: the sorted and truncated pairs. *)
Definition ranked_pairs (env : Env) (self : t) (query : string)
    : result (list (Editor.t * Project.t)) :=
  editor_project_pairs ← collect env query (editors self) [];
  let editor_project_pairs := sort_by_key_reverse pair_key editor_project_pairs in
  item_limit ← getitem (preferences self) "item_limit";
  n ← int item_limit;
  Ok (slice_to n editor_project_pairs).

Definition render (pair : Editor.t * Project.t) : ExtensionResultItem :=
  let '(editor, project) := pair in
  {| item_name := Project.name project;
     item_description := Project.path project;
     item_icon := path_str (Editor.icon editor);
     item_on_enter :=
       match Editor.binary editor with Some b => b | None => "None" end
       +:+ " " +:+ Project.path project |}.

(** [KeywordQueryEventListener.on_event]: the items handed to
    [RenderResultListAction]. *)
Definition on_event (env : Env) (self : t) (query : string)
    : result (list ExtensionResultItem) :=
  pairs ← ranked_pairs env self query;
  Ok (render <$> (pairs : list (Editor.t * Project.t))).

End KeywordQueryEventListener.

(** [class PreferencesEventListener]: on a preferences event a new query
    listener is built from the preferences and subscribed. *)
Module PreferencesEventListener.

Definition on_event (env : Env) (preferences : gmap string string)
    : result KeywordQueryEventListener.t :=
  KeywordQueryEventListener.__init__ env preferences.

End PreferencesEventListener.

(** ** A concrete environment

    A small machine used to evaluate the program: user [u] with home
    [/home/u], CLion and PyCharm under [/opt/bin], CLion alone under
    [~/bin], and their configuration directories under [~/.config]. *)

Module Demo.

Definition elem (t : string) (attrs : list (string * string))
    (cs : list element) : element :=
  Element t (list_to_map attrs) cs.

(** One [entry] of a history file, with its time stamp if it has one. *)
Definition entry (key : string) (stamp : option string) : element :=
  elem "entry" [("key", key)]
    [elem "value" []
       [elem "RecentProjectMetaInfo" []
          match stamp with
          | Some v => [elem "option" [("name", "projectOpenTimestamp");
                                      ("value", v)] []]
          | None => [elem "option" [("name", "projectBuild")] []]
          end]].

Definition history (entries : list element) : element :=
  elem "application" []
    [elem "component" [("name", "RecentProjectsManager")]
       [elem "option" [("name", "additionalInfo")] [elem "map" [] entries]]].

(** A configuration directory holding [options/recentProjects.xml]. *)
Definition generation (c : content) : node :=
  Dir [("options", Dir [("recentProjects.xml", File c)])].

Definition clion_history : element :=
  history [entry "$USER_HOME$/proj/a" (Some "100");
           entry "$USER_HOME$/proj/b" (Some "50");
           entry "$USER_HOME$/proj/c" (Some "200")].

Definition pycharm_history : element :=
  history [entry "$USER_HOME$/proj/d" (Some "100");
           entry "$USER_HOME$/proj/gone" (Some "300");
           entry "$USER_HOME$/proj/old" None;
           entry "/srv/e" (Some "150")].

Definition bad_stamp_history : element :=
  history [entry "$USER_HOME$/proj/a" (Some "abc")].

Definition demo_fs : list (string * node) :=
  [ ("home", Dir
      [("u", Dir
         [(".config", Dir
            [("JetBrains", Dir
               [("CLion2023.1", generation (Xml (history [])));
                ("CLion2023.2", generation (Xml clion_history));
                ("CLion.log", File NotXml);
                ("PyCharm2023.1", generation (Xml pycharm_history));
                ("GoLand2023.1", generation NotXml);
                ("Rider2023.1", generation (Xml bad_stamp_history));
                ("WebStorm2023.1", Dir [])]);
             ("X-1.0", generation (Xml (history [entry "/srv/one" (Some "1")])));
             ("X-2.1", generation (Xml (history [entry "/srv/two" (Some "2")])));
             ("X-10.0", generation (Xml (history [entry "/srv/ten" (Some "10")])))]);
          ("proj", Dir [("a", Dir []); ("b", Dir []); ("c", Dir []);
                        ("d", Dir []); ("old", Dir [])]);
          ("bin", Dir [("clion", File NotXml)])])]);
    ("srv", Dir [("e", Dir []); ("one", Dir []); ("two", Dir []);
                 ("ten", Dir [])]);
    ("opt", Dir
      [("bin", Dir [("clion", File NotXml); ("clion-eap", File NotXml);
                    ("pycharm-eap", File NotXml); ("pycharm", File NotXml);
                    ("goland", Dir [])])]) ].

(** A stand-in for [re]: exact on patterns without special characters
    (the backslash, code 92, is one), which it searches as case-insensitive
    substrings, and on the listed patterns, which [re] refuses to compile;
    no other pattern is used. *)
Definition special (c : ascii) : bool :=
  bool_decide (c ∈ list_ascii_of_string ".^$*+?{}[]|()") ||
  (nat_of_ascii c =? 92)%nat.

Definition lower (c : ascii) : ascii :=
  let n := nat_of_ascii c in
  if ((65 <=? n)%nat && (n <=? 90)%nat) then ascii_of_nat (n + 32) else c.

Fixpoint str_lower (s : string) : string :=
  match s with
  | EmptyString => EmptyString
  | String c s' => String (lower c) (str_lower s')
  end.

Fixpoint contains (p s : string) : bool :=
  String.prefix p s ||
  match s with
  | EmptyString => false
  | String _ s' => contains p s'
  end.

Definition demo_re_valid (p : string) : bool :=
  negb (bool_decide (p ∈ ["("; ")"; "["; "*"; "+"; "?"])).

Definition demo_re_found (p s : string) : bool :=
  forallb (λ c, negb (special c)) (list_ascii_of_string p) &&
  contains (str_lower p) (str_lower s).

Definition demo_env : Env :=
  {| home := "/home/u";
     user_home := λ u, if String.eqb u "u" then Some "/home/u" else None;
     cwd := ["home"; "u"];
     fs := demo_fs;
     platform := "linux";
     plugin_dir := parse_path "/home/u/.local/share/ulauncher/extensions/jetbrains";
     re_valid := demo_re_valid;
     re_found := demo_re_found |}.

Definition prefs (binaries item_limit : string) : gmap string string :=
  {[ "binaries" := binaries; "item_limit" := item_limit ]}.

(** The editors that [__init__] finds on this machine, and listeners. *)
Definition clion (binary : string) : Editor.t :=
  {| Editor.name := "CLion";
     Editor.icon := joinpath (joinpath (plugin_dir demo_env) "images") "clion.svg";
     Editor.config_dir_prefix := "JetBrains/CLion";
     Editor.binary := Some binary |}.

Definition pycharm : Editor.t :=
  {| Editor.name := "PyCharm";
     Editor.icon := joinpath (joinpath (plugin_dir demo_env) "images") "pycharm.svg";
     Editor.config_dir_prefix := "JetBrains/PyCharm";
     Editor.binary := Some "/opt/bin/pycharm" |}.

Definition rider : Editor.t :=
  {| Editor.name := "Rider";
     Editor.icon := joinpath (joinpath (plugin_dir demo_env) "images") "rider.svg";
     Editor.config_dir_prefix := "JetBrains/Rider";
     Editor.binary := Some "/opt/bin/rider" |}.

Definition listener (binaries item_limit : string) (editors : list Editor.t)
    : KeywordQueryEventListener.t :=
  {| KeywordQueryEventListener.preferences := prefs binaries item_limit;
     KeywordQueryEventListener.editors := editors |}.

(** The time stamps and project names of a result. *)
Definition summary (r : result (list (Editor.t * Project.t)))
    : result (list (string * string * Z)) :=
  match r with
  | Ok l => Ok ((λ pr, (Editor.name (fst pr), Project.name (snd pr),
                        Project.last_opened (snd pr))) <$> l)
  | Raise e => Raise e
  end.

(** An editor family [X] whose configuration directories are [X-1.0],
    [X-2.1] and [X-10.0]. *)
Definition x_editor : Editor.t :=
  {| Editor.name := "X"; Editor.icon := parse_path "x.svg";
     Editor.config_dir_prefix := "X-"; Editor.binary := Some "/opt/bin/x" |}.

(** An editor family [Y] without any configuration directory. *)
Definition y_editor : Editor.t :=
  {| Editor.name := "Y"; Editor.icon := parse_path "y.svg";
     Editor.config_dir_prefix := "Y-"; Editor.binary := Some "/opt/bin/y" |}.

End Demo.

(** ** Further notions used in the statements *)

(** A path component as [Path] keeps them: not empty, not ["."], without a
    slash; and a path all of whose components are such, below one of the
    three roots. *)
Definition no_slash (c : string) : bool :=
  forallb (λ a, negb (Ascii.eqb a slash)) (list_ascii_of_string c).

Definition path_ok (p : PurePath) : Prop :=
  (root p = "" ∨ root p = "/" ∨ root p = "//") ∧
  Forall (λ c, is_component c = true ∧ no_slash c = true) (parts p).

(** A string without the character that opens and closes the home
    placeholder. *)
Definition no_dollar (s : string) : bool :=
  forallb (λ a, negb (Ascii.eqb a "$")) (list_ascii_of_string s).







(** A second demonstration machine. *)
Module Fixtures.

(** The machine after an editor upgrade: a new CLion configuration
    directory exists, in which no project has been opened yet. *)
Definition upgraded_env : Env :=
  {| home := "/home/u";
     user_home := λ _, None;
     cwd := ["home"; "u"];
     fs := [("home", Dir
              [("u", Dir
                 [(".config", Dir
                    [("JetBrains", Dir
                       [("CLion2023.2", Demo.generation (Xml Demo.clion_history));
                        ("CLion2024.1", Dir [])])]);
                  ("proj", Dir [("a", Dir []); ("b", Dir []); ("c", Dir [])])])])];
     platform := "linux";
     plugin_dir := plugin_dir Demo.demo_env;
     re_valid := Demo.demo_re_valid;
     re_found := Demo.demo_re_found |}.

(** Histories that are well-formed XML but not what the editors write:
    an entry whose first time stamp option has no value while the second
    has one; an entry beside the component instead of below it; a
    component below another. *)
Definition stamp_option (attrs : list (string * string)) : element :=
  Demo.elem "option" (("name", "projectOpenTimestamp") :: attrs) [].

Definition valueless_first_history : element :=
  Demo.history [Demo.elem "entry" [("key", "/srv/e")]
                  [stamp_option []; stamp_option [("value", "5")]]].

Definition stray_entry_history : element :=
  Demo.elem "application" []
    [Demo.entry "/srv/e" (Some "5");
     Demo.elem "component" [("name", "RecentProjectsManager")] []].

Definition nested_history : element :=
  Demo.elem "application" []
    [Demo.elem "component" [("name", "RecentProjectsManager")]
       [Demo.elem "component" [("name", "RecentProjectsManager")]
          [Demo.entry "/srv/a" (Some "100")];
        Demo.entry "/srv/b" (Some "100")]].

(** A machine holding these histories, two history files whose declared
    encoding the parser does not read, and a directory in the place of a
    history file. *)
Definition odd_env : Env :=
  {| home := "/home/u";
     user_home := λ _, None;
     cwd := ["home"; "u"];
     fs := [("home", Dir
              [("u", Dir
                 [(".config", Dir
                    [("JetBrains", Dir
                       [("CLion2023.1",
                         Demo.generation (Xml valueless_first_history));
                        ("PyCharm2023.1",
                         Demo.generation (Xml stray_entry_history));
                        ("Rider2023.1", Demo.generation (Xml nested_history));
                        ("GoLand2023.1", Demo.generation (BadEncoding true));
                        ("WebStorm2023.1", Demo.generation (BadEncoding false));
                        ("DataGrip2023.1",
                         Dir [("options",
                               Dir [("recentProjects.xml", Dir [])])])])])])]);
            ("srv", Dir [("a", Dir []); ("b", Dir []); ("e", Dir [])])];
     platform := "linux";
     plugin_dir := plugin_dir Demo.demo_env;
     re_valid := Demo.demo_re_valid;
     re_found := Demo.demo_re_found |}.


End Fixtures.

(** * Properties *)

(** ** The library fragments on examples *)

Example int_examples :
  int "12" = Ok 12 ∧ int " -7 " = Ok (-7) ∧ int "1_000" = Ok 1000 ∧
  int "007" = Ok 7 ∧ int "" = Raise ValueError ∧ int "abc" = Raise ValueError ∧
  int "1__0" = Raise ValueError ∧ int "_1" = Raise ValueError ∧
  int "1_" = Raise ValueError ∧ int "- 1" = Raise ValueError ∧
  int "+" = Raise ValueError ∧ int "1 2" = Raise ValueError.
Proof. repeat split; reflexivity. Qed.

Example str_replace_examples :
  str_replace "$USER_HOME$" "/h" "ab$USER_HOME$$USER_HOME$x" = "ab/h/hx" ∧
  str_replace "$USER_HOME$" "/h" "$USER_HOM$USER_HOME$" = "$USER_HOM/h" ∧
  str_replace "" "-" "abc" = "-a-b-c-".
Proof. repeat split; reflexivity. Qed.

Example slice_examples :
  slice_to (-1) [1; 2; 3] = [1; 2] ∧ slice_to (-5) [1; 2; 3] = [] ∧
  slice_to 0 [1; 2; 3] = [] ∧ slice_to 7 [1; 2; 3] = [1; 2; 3].
Proof. repeat split; reflexivity. Qed.

Example path_examples :
  path_str (parse_path "a//b/./c/") = "a/b/c" ∧
  path_str (parse_path "//a") = "//a" ∧
  path_str (parse_path "///a") = "/a" ∧
  path_str (parse_path "") = "." ∧
  path_name (parse_path "/home/u/proj/") = "proj" ∧
  path_name (parse_path "/") = "" ∧
  path_str (joinpath (parse_path "/a") "options") = "/a/options" ∧
  path_leb (parse_path "/c/X-10.0") (parse_path "/c/X-2.1") = true ∧
  path_leb (parse_path "/c/X-2.1") (parse_path "/c/X-10.0") = false.
Proof. repeat split; reflexivity. Qed.

Example registry_prefixes_literal :
  Forall (λ d, glob_literal d.1.2 = true) KeywordQueryEventListener.registry.
Proof. repeat constructor. Qed.

Example findall_examples :
  let entry k := Element "entry" {[ "key" := k ]} [] in
  let component cs := Element "component" {[ "name" := "RecentProjectsManager" ]} cs in
  (attrib <$> findall_entries
     (Element "r" ∅ [component [component [entry "k1"]]; entry "out"]))
    = [{[ "key" := "k1" ]}; {[ "key" := "k1" ]}] ∧
  findall_entries (component [entry "k1"]) = [].
Proof. split; by vm_compute. Qed.


(** ** The error monad *)

Lemma bind_Ok {A B} (m : result A) (f : A → result B) (b : B) :
  m ≫= f = Ok b ↔ ∃ a, m = Ok a ∧ f a = Ok b.
Proof.
  destruct m as [a|e]; simpl; split.
  - intros H. by exists a.
  - by intros (a' & [= <-] & H).
  - done.
  - by intros (a' & [=] & _).
Qed.

Lemma filterM_Ok {A} (f : A → result bool) (l r : list A) :
  filterM f l = Ok r →
  Forall (λ x, ∃ b, f x = Ok b) l ∧ r = filter (λ x, f x = Ok true) l.
Proof.
  revert r. induction l as [|x l IH]; simpl; intros r H.
  - injection H as <-. by split.
  - apply bind_Ok in H as (b & Hb & H).
    apply bind_Ok in H as (r' & Hr' & H).
    injection H as <-.
    destruct (IH _ Hr') as [Hall ->].
    split; [constructor; eauto|].
    rewrite filter_cons. destruct b.
    + by rewrite decide_True.
    + rewrite decide_False; [done|]. by rewrite Hb.
Qed.



Lemma mapM_Ok {A B} (f : A → result B) (l : list A) (r : list B) :
  mapM f l = Ok r ↔ Forall2 (λ x y, f x = Ok y) l r.
Proof.
  revert r. induction l as [|x l IH]; simpl; intros r.
  - split; [intros [= <-]; constructor|by inversion 1].
  - rewrite bind_Ok. split.
    + intros (y & Hy & H). apply bind_Ok in H as (r' & Hr' & [= <-]).
      constructor; [done|]. by apply IH.
    + inversion 1 as [|? y ? r' Hy Hr']; subst. exists y. split; [done|].
      apply bind_Ok. exists r'. split; [by apply IH|done].
Qed.

(** ** Python's stable sort *)

Section sorted_facts.
Context {A : Type} (le : A → A → bool).

Lemma insert_sorted_Permutation (x : A) (l : list A) :
  insert_sorted le x l ≡ₚ x :: l.
Proof.
  induction l as [|y l IH]; simpl; [done|].
  destruct (le x y); [done|]. rewrite IH. apply Permutation_swap.
Qed.

Lemma sorted_Permutation (l : list A) : sorted le l ≡ₚ l.
Proof.
  induction l as [|x l IH]; simpl; [done|].
  by rewrite insert_sorted_Permutation, IH.
Qed.

(** Stability: a class of elements that the order does not separate keeps
    its order of arrival. *)
Lemma insert_sorted_filter (P : A → Prop) `{!∀ x, Decision (P x)} x l :
  (∀ y, P x → P y → le x y = true) →
  filter P (insert_sorted le x l) = filter P (x :: l).
Proof.
  intros Hcls. induction l as [|y l IH]; simpl; [done|].
  destruct (le x y) eqn:Hxy; [done|].
  rewrite filter_cons, IH, !filter_cons.
  destruct (decide (P y)) as [Hy|Hy]; [|done].
  destruct (decide (P x)) as [Hx|Hx]; [|done].
  rewrite Hcls in Hxy; done.
Qed.

Lemma sorted_filter (P : A → Prop) `{!∀ x, Decision (P x)} l :
  (∀ x y, P x → P y → le x y = true) →
  filter P (sorted le l) = filter P l.
Proof.
  intros Hcls. induction l as [|x l IH]; simpl; [done|].
  rewrite insert_sorted_filter by eauto.
  by rewrite !filter_cons, IH.
Qed.

Lemma sorted_last_elem d l :
  List.last (sorted le (d :: l)) d ∈ d :: l.
Proof.
  pose proof (sorted_Permutation (d :: l)) as Hp.
  destruct (sorted le (d :: l)) as [|y s] eqn:E.
  { by apply Permutation_nil_cons in Hp. }
  assert (y :: s ≠ []) as Hne by done.
  destruct (exists_last Hne) as (s' & w & Hw).
  rewrite Hw, last_last. rewrite <-Hp, Hw. set_solver.
Qed.

Context (le_total : ∀ x y, le x y = false → le y x = true).
Context (le_trans : ∀ x y z, le x y = true → le y z = true → le x z = true).

Lemma insert_sorted_StronglySorted x l :
  StronglySorted (λ a b, le a b = true) l →
  StronglySorted (λ a b, le a b = true) (insert_sorted le x l).
Proof.
  induction 1 as [|y l Hl IH Hy]; simpl.
  - repeat constructor.
  - destruct (le x y) eqn:Hxy.
    + constructor; [by constructor|].
      constructor; [done|].
      eapply Forall_impl; [exact Hy|]. intros z Hz. eauto.
    + constructor; [done|].
      rewrite insert_sorted_Permutation. constructor; [|done]. auto.
Qed.

Lemma sorted_StronglySorted l :
  StronglySorted (λ a b, le a b = true) (sorted le l).
Proof.
  induction l as [|x l IH]; simpl; [constructor|].
  by apply insert_sorted_StronglySorted.
Qed.

(** The last element of a sorted list is a greatest element. *)
Lemma sorted_last_greatest d l x :
  x ∈ d :: l → le x (List.last (sorted le (d :: l)) d) = true.
Proof.
  intros Hx.
  assert (Hx' : x ∈ sorted le (d :: l)) by by rewrite sorted_Permutation.
  pose proof (sorted_StronglySorted (d :: l)) as Hs.
  assert (Hrefl : ∀ y, le y y = true).
  { intros y. destruct (le y y) eqn:E; [done|].
    pose proof (le_total _ _ E). congruence. }
  revert Hx' Hs. generalize (sorted le (d :: l)) as s. clear Hx.
  induction s as [|y s IH]; intros Hx Hs; [by apply elem_of_nil in Hx|].
  inversion Hs as [|? ? Hs' Hy]; subst.
  destruct s as [|z s].
  - apply list_elem_of_singleton in Hx as ->. simpl. apply Hrefl.
  - apply elem_of_cons in Hx as [->|Hx].
    + change (List.last (y :: z :: s) d) with (List.last (z :: s) d).
      rewrite Forall_forall in Hy. apply Hy.
      assert (z :: s ≠ []) as Hne by done.
      destruct (exists_last Hne) as (s' & w & Hw). rewrite Hw.
      rewrite last_last. set_solver.
    + change (List.last (y :: z :: s) d) with (List.last (z :: s) d). auto.
Qed.

End sorted_facts.

(** ** The order on paths *)

Section lex_compare_facts.
Context {A : Type} (cmp : A → A → comparison).
Context (cmp_eq : ∀ x y, cmp x y = Eq ↔ x = y).
Context (cmp_opp : ∀ x y, cmp y x = CompOpp (cmp x y)).
Context (cmp_lt_trans : ∀ x y z, cmp x y = Lt → cmp y z = Lt → cmp x z = Lt).

Lemma lex_compare_eq l1 l2 : lex_compare cmp l1 l2 = Eq ↔ l1 = l2.
Proof.
  revert l2. induction l1 as [|x l1 IH]; intros [|y l2]; simpl; try done.
  destruct (cmp x y) eqn:E.
  - apply cmp_eq in E as ->. rewrite IH.
    split; [by intros ->|by intros [= ->]].
  - split; [done|]. intros [= -> _].
    assert (cmp y y = Eq) by by apply cmp_eq. congruence.
  - split; [done|]. intros [= -> _].
    assert (cmp y y = Eq) by by apply cmp_eq. congruence.
Qed.

Lemma lex_compare_opp l1 l2 :
  lex_compare cmp l2 l1 = CompOpp (lex_compare cmp l1 l2).
Proof.
  revert l2. induction l1 as [|x l1 IH]; intros [|y l2]; simpl; try done.
  rewrite (cmp_opp x y). destruct (cmp x y); simpl; auto.
Qed.

Lemma lex_compare_lt_trans l1 l2 l3 :
  lex_compare cmp l1 l2 = Lt → lex_compare cmp l2 l3 = Lt →
  lex_compare cmp l1 l3 = Lt.
Proof.
  revert l2 l3.
  induction l1 as [|x l1 IH]; intros [|y l2] [|z l3]; simpl; try done.
  destruct (cmp x y) eqn:Exy; [| |done].
  - apply cmp_eq in Exy as ->. destruct (cmp y z); [eauto|done|done].
  - destruct (cmp y z) eqn:Eyz; [| |done].
    + apply cmp_eq in Eyz as ->. by rewrite Exy.
    + intros _ _. by rewrite (cmp_lt_trans x y z Exy Eyz).
Qed.

Lemma lex_compare_app l l1 l2 :
  lex_compare cmp (l ++ l1) (l ++ l2) = lex_compare cmp l1 l2.
Proof.
  induction l as [|x l IH]; simpl; [done|].
  assert (cmp x x = Eq) as -> by by apply cmp_eq. done.
Qed.

End lex_compare_facts.

Lemma str_codes_inj s t : str_codes s = str_codes t → s = t.
Proof.
  unfold str_codes. intros H.
  rewrite <-(string_of_list_ascii_of_string s),
          <-(string_of_list_ascii_of_string t).
  f_equal. revert H.
  generalize (list_ascii_of_string s) (list_ascii_of_string t).
  intros l1. induction l1 as [|a l1 IH]; intros [|b l2]; simpl; try done.
  intros [= Hab Hl]. f_equal; [|auto].
  by rewrite <-(ascii_N_embedding a), <-(ascii_N_embedding b), Hab.
Qed.

Lemma N_compare_lt_trans (x y z : N) :
  (x ?= y)%N = Lt → (y ?= z)%N = Lt → (x ?= z)%N = Lt.
Proof. rewrite !N.compare_lt_iff. lia. Qed.

Lemma str_compare_eq s t : str_compare s t = Eq ↔ s = t.
Proof.
  unfold str_compare. rewrite (lex_compare_eq _ N.compare_eq_iff).
  split; [apply str_codes_inj|by intros ->].
Qed.

Lemma str_compare_opp s t : str_compare t s = CompOpp (str_compare s t).
Proof. apply lex_compare_opp. intros x y. apply N.compare_antisym. Qed.

Lemma str_compare_lt_trans s t u :
  str_compare s t = Lt → str_compare t u = Lt → str_compare s u = Lt.
Proof.
  apply lex_compare_lt_trans.
  - apply N.compare_eq_iff.
  - apply N_compare_lt_trans.
Qed.

Lemma path_leb_total p q : path_leb p q = false → path_leb q p = true.
Proof.
  unfold path_leb, path_compare.
  rewrite (lex_compare_opp _ str_compare_opp (cparts p) (cparts q)).
  by destruct (lex_compare str_compare (cparts p) (cparts q)).
Qed.

Lemma path_leb_trans p q r :
  path_leb p q = true → path_leb q r = true → path_leb p r = true.
Proof.
  unfold path_leb, path_compare.
  destruct (lex_compare str_compare (cparts p) (cparts q)) eqn:Epq; [| |done].
  - apply (lex_compare_eq _ str_compare_eq) in Epq as ->. done.
  - destruct (lex_compare str_compare (cparts q) (cparts r)) eqn:Eqr; [| |done].
    + apply (lex_compare_eq _ str_compare_eq) in Eqr as <-. by rewrite Epq.
    + by rewrite (lex_compare_lt_trans _ str_compare_eq str_compare_lt_trans
                    _ _ _ Epq Eqr).
Qed.

(** Two children of one directory are ordered as their names are. *)
Lemma path_leb_siblings r cs a b :
  path_leb {| root := r; parts := cs ++ [a] |}
           {| root := r; parts := cs ++ [b] |} = str_leb a b.
Proof.
  unfold path_leb, path_compare, cparts, is_absolute, str_leb. simpl.
  destruct (negb (r =? "")%string).
  - rewrite !app_comm_cons, (lex_compare_app _ str_compare_eq). simpl.
    by destruct (str_compare a b).
  - rewrite (lex_compare_app _ str_compare_eq). simpl.
    by destruct (str_compare a b).
Qed.

(** ** Globbing the configuration directories *)

Lemma glob_prefix_spec env base prefix d :
  d ∈ glob_prefix env base prefix ↔
  ∃ es nm sub,
    stat env (glob_parent base prefix) = inr (Dir es) ∧
    (nm, Dir sub) ∈ es ∧
    String.prefix (glob_stem prefix) nm = true ∧
    d = {| root := root base;
           parts := parts (glob_parent base prefix) ++ [nm] |}.
Proof.
  unfold glob_prefix.
  destruct (stat env (glob_parent base prefix)) as [e|[c|es]].
  - split; [by intros ?%elem_of_nil|]. by intros (? & ? & ? & [=] & _).
  - split; [by intros ?%elem_of_nil|]. by intros (? & ? & ? & [=] & _).
  - rewrite list_elem_of_omap. split.
    + intros ([nm [c|sub]] & Hin & Hd); simpl in Hd; [done|].
      destruct (String.prefix (glob_stem prefix) nm) eqn:Hp; [|done].
      injection Hd as <-. by exists es, nm, sub.
    + intros (es' & nm & sub & [= <-] & Hin & Hp & ->).
      exists (nm, Dir sub). split; [done|]. simpl. by rewrite Hp.
Qed.

Lemma str_leb_antisym s t : str_leb s t = true → str_leb t s = true → s = t.
Proof.
  unfold str_leb. rewrite (str_compare_opp s t).
  destruct (str_compare s t) eqn:E; simpl; try done.
  intros _ _. by apply str_compare_eq.
Qed.

Lemma path_name_child r cs nm :
  path_name {| root := r; parts := cs ++ [nm] |} = nm.
Proof. unfold path_name. simpl. apply last_last. Qed.

(** ** The configuration-generation selector *)

(** C4.  Among the configuration directories that the glob finds for an
    editor (the subdirectories of one parent whose names start with the
    prefix), [list_projects] parses the history file of the one whose name
    is lexicographically greatest, and no other candidate has a name as
    great; when the glob finds nothing, the project list is empty. *)
Theorem list_projects_selects_greatest (env : Env) (self : Editor.t) :
  let prefix := Editor.config_dir_prefix self in
  let dirs := glob_prefix env (Editor.config_dir env) prefix in
  (dirs = [] → Editor.list_projects env self = Ok []) ∧
  (∀ d, d ∈ dirs →
     String.prefix (glob_stem prefix) (path_name d) = true ∧
     is_absolute d = is_absolute (Editor.config_dir env) ∧
     parts d = parts (glob_parent (Editor.config_dir env) prefix) ++ [path_name d]) ∧
  (dirs ≠ [] →
     ∃ latest,
       latest ∈ dirs ∧
       (∀ d, d ∈ dirs → str_leb (path_name d) (path_name latest) = true) ∧
       (∀ d, d ∈ dirs → str_leb (path_name latest) (path_name d) = true →
             d = latest) ∧
       Editor.list_projects env self =
         Editor._parse_recent_projects env
           (joinpath (joinpath latest "options") "recentProjects.xml")).
Proof.
  intros prefix dirs.
  assert (Hshape : ∀ d, d ∈ dirs →
     d = {| root := root (Editor.config_dir env);
            parts := parts (glob_parent (Editor.config_dir env) prefix)
                     ++ [path_name d] |} ∧
     String.prefix (glob_stem prefix) (path_name d) = true).
  { intros d (es & nm & sub & _ & _ & Hp & ->)%glob_prefix_spec.
    by rewrite path_name_child. }
  split; [|split].
  - unfold Editor.list_projects. fold prefix dirs. by intros ->.
  - intros d Hd. destruct (Hshape d Hd) as [Heq Hp].
    split; [done|]. remember (path_name d) as nm eqn:Hnm. clear Hnm.
    by rewrite Heq.
  - intros Hne. unfold Editor.list_projects. fold prefix dirs.
    destruct dirs as [|d0 rest] eqn:Edirs; [done|].
    exists (Editor.latest d0 rest).
    assert (Hin : Editor.latest d0 rest ∈ d0 :: rest)
      by apply sorted_last_elem.
    assert (Hmax : ∀ d, d ∈ d0 :: rest →
              str_leb (path_name d) (path_name (Editor.latest d0 rest)) = true).
    { intros d Hd.
      pose proof (sorted_last_greatest path_leb path_leb_total path_leb_trans
                    d0 rest d Hd) as Hle.
      fold (Editor.latest d0 rest) in Hle.
      destruct (Hshape _ Hd) as [Hd' _], (Hshape _ Hin) as [Hl' _].
      rewrite Hd', Hl' in Hle. by rewrite path_leb_siblings in Hle. }
    split; [done|]. split; [done|]. split; [|done].
    intros d Hd Hge.
    destruct (Hshape _ Hd) as [Hd' _], (Hshape _ Hin) as [Hl' _].
    rewrite Hd', Hl'. do 3 f_equal.
    apply str_leb_antisym; [by apply Hmax|done].
Qed.

Lemma list_projects_selects_greatest_witness :
  let dirs := glob_prefix Demo.demo_env (Editor.config_dir Demo.demo_env) "X-" in
  path_name <$> dirs = ["X-1.0"; "X-2.1"; "X-10.0"] ∧
  (∃ latest,
     latest ∈ dirs ∧
     (∀ d, d ∈ dirs → str_leb (path_name d) (path_name latest) = true) ∧
     (∀ d, d ∈ dirs → str_leb (path_name latest) (path_name d) = true →
           d = latest) ∧
     Editor.list_projects Demo.demo_env Demo.x_editor =
       Editor._parse_recent_projects Demo.demo_env
         (joinpath (joinpath latest "options") "recentProjects.xml")) ∧
  Editor.list_projects Demo.demo_env Demo.x_editor =
    Editor._parse_recent_projects Demo.demo_env
      (parse_path "/home/u/.config/X-2.1/options/recentProjects.xml") ∧
  Editor.list_projects Demo.demo_env Demo.x_editor =
    Ok [ {| Project.name := "two"; Project.path := "/srv/two";
            Project.last_opened := 2 |} ].
Proof.
  intros dirs. split; [by vm_compute|]. split; [|split; by vm_compute].
  apply (list_projects_selects_greatest Demo.demo_env Demo.x_editor).
  by vm_compute.
Defined.

(** ** The project history parser *)

Lemma truthy_true s : Editor.truthy s = true ↔ s ≠ "".
Proof.
  unfold Editor.truthy. rewrite negb_true_iff. apply String.eqb_neq.
Qed.


(** A missing file and a file that is not a well-formed document both give
    the empty list. *)
Lemma parse_recent_projects_missing_or_malformed env file :
  stat env file = inl ENOENT ∨ stat env file = inr (File NotXml) →
  Editor._parse_recent_projects env file = Ok [].
Proof.
  unfold Editor._parse_recent_projects, ElementTree_parse.
  by intros [-> | ->].
Qed.

(** [int] raises nothing but [ValueError]. *)
Lemma unsigned_int_raises l e : unsigned_int l = Raise e → e = ValueError.
Proof.
  unfold unsigned_int. destruct l as [|c l]; [by intros [= <-]|].
  destruct (digit_value c) as [v|]; [|by intros [= <-]].
  destruct (more_digits _ _ _) as [[z n]|]; [|by intros [= <-]].
  destruct (_ <=? _)%nat; [done|by intros [= <-]].
Qed.

Lemma int_raises s e : int s = Raise e → e = ValueError.
Proof.
  unfold int. destruct (strip _) as [|c l]; [by intros [= <-]|].
  destruct (_ =? 45)%nat.
  - destruct (unsigned_int l) as [z|e'] eqn:E; simpl; [done|].
    intros [= <-]. by apply unsigned_int_raises in E.
  - destruct (_ =? 43)%nat; apply unsigned_int_raises.
Qed.

Lemma entry_project_raises env x e :
  Editor.entry_project env x = Raise e → e = KeyError ∨ e = ValueError.
Proof.
  unfold Editor.entry_project, getitem.
  destruct (attrib x !! "key") as [k|]; simpl; [|intros [= <-]; by left].
  destruct (find_timestamp x) as [o|]; [|done].
  destruct (attrib o !! "value") as [v|]; [|done].
  destruct (_ && _); [|done].
  destruct (int v) as [n|e'] eqn:E; simpl; [done|].
  intros [= <-]. right. by apply int_raises in E.
Qed.

(** On a document, the parser runs the loop over the selected entries; the
    handler catches none of the exceptions that the loop can raise. *)
Lemma parse_recent_projects_document env file r :
  stat env file = inr (File (Xml r)) →
  Editor._parse_recent_projects env file =
    Editor.entry_projects env (findall_entries r).
Proof.
  unfold Editor._parse_recent_projects, ElementTree_parse. intros ->. simpl.
  unfold Editor.entry_projects.
  assert (Hraise : ∀ l e, mapM (Editor.entry_project env) l = Raise e →
            Editor.caught_by_parser e = false).
  { induction l as [|x l IH]; simpl; intros e; [done|].
    destruct (Editor.entry_project env x) as [o|e'] eqn:Ex; simpl.
    - destruct (mapM (Editor.entry_project env) l) as [os|e'']; simpl;
        [done|]. intros [= <-]. eauto.
    - intros [= <-]. by apply entry_project_raises in Ex as [-> | ->]. }
  destruct (mapM _ _) as [os|e] eqn:E; simpl; [done|].
  by rewrite (Hraise _ _ E).
Qed.

(** C1 (the code departs from it).  The history file of the demonstration
    machine's Rider configuration is a well-formed document whose single
    entry carries the time stamp ["abc"]; parsing it raises [ValueError],
    which the handler of [_parse_recent_projects] does not catch, so that
    [list_projects] and the query handler raise it too. *)
Theorem parse_recent_projects_raises_on_bad_timestamp :
  let file :=
    parse_path "/home/u/.config/JetBrains/Rider2023.1/options/recentProjects.xml" in
  stat Demo.demo_env file = inr (File (Xml Demo.bad_stamp_history)) ∧
  Editor._parse_recent_projects Demo.demo_env file = Raise ValueError ∧
  Editor.list_projects Demo.demo_env Demo.rider = Raise ValueError ∧
  KeywordQueryEventListener.on_event Demo.demo_env
    (Demo.listener "/opt/bin" "10" [Demo.rider]) "" = Raise ValueError.
Proof. repeat split; by vm_compute. Qed.










(** ** The binary resolver *)

Lemma prefix_slash_absolute s :
  String.prefix "/" s = true → is_absolute (parse_path s) = true.
Proof.
  destruct s as [|c s]; [done|]. cbn [String.prefix].
  destruct (ascii_dec "/" c) as [<-|]; [|done]. intros _.
  unfold is_absolute, parse_path. cbn [root leading_slashes].
  unfold slash. rewrite Ascii.eqb_refl.
  by destruct (leading_slashes s) as [|[|n]].
Qed.

Lemma prefix_slash_cons s : String.prefix "/" (String "/" s) = true.
Proof.
  cbn [String.prefix]. destruct (ascii_dec "/" "/"); [by destruct s|done].
Qed.

Lemma absolute_path_str p :
  root p = "/" ∨ root p = "//" → String.prefix "/" (path_str p) = true.
Proof.
  unfold path_str. intros [-> | ->]; apply prefix_slash_cons.
Qed.

Lemma parse_path_root s :
  is_absolute (parse_path s) = true →
  root (parse_path s) = "/" ∨ root (parse_path s) = "//".
Proof.
  unfold is_absolute, parse_path. simpl.
  destruct (leading_slashes s) as [|[|[|n]]]; simpl; auto; done.
Qed.

Lemma expanduser_absolute env p :
  is_absolute p = true → expanduser env p = Ok p.
Proof.
  unfold expanduser. intros ->. by destruct (parts p).
Qed.

Lemma candidate_absolute env binaries_path binary p :
  String.prefix "/" binaries_path = true →
  Editor.candidate env binaries_path binary = Ok p →
  String.prefix "/" (path_str p) = true.
Proof.
  intros Habs. unfold Editor.candidate.
  assert (Hp : is_absolute (parse_path (binaries_path +:+ "/" +:+ binary)) = true).
  { apply prefix_slash_absolute. destruct binaries_path as [|c s]; [done|].
    change (String.prefix "/" (String c (s +:+ "/" +:+ binary)) = true).
    cbn [String.prefix] in *. destruct (ascii_dec "/" c); [|done].
    by destruct (s +:+ "/" +:+ binary). }
  rewrite (expanduser_absolute _ _ Hp). intros [= <-].
  apply absolute_path_str. by apply parse_path_root.
Qed.

(** A directory written [~/...] is expanded below the home directory. *)
Lemma candidate_home_absolute env binaries_path binary p :
  String.prefix "~/" binaries_path = true →
  String.prefix "/" (home env) = true →
  Editor.candidate env binaries_path binary = Ok p →
  String.prefix "/" (path_str p) = true.
Proof.
  intros Htilde Hhome. unfold Editor.candidate.
  destruct binaries_path as [|c1 [|c2 s]]; [done| |].
  { cbn [String.prefix] in Htilde. by destruct (ascii_dec "~" c1). }
  cbn [String.prefix] in Htilde.
  destruct (ascii_dec "~" c1) as [<-|]; [|done].
  destruct (ascii_dec "/" c2) as [<-|]; [|done]. clear Htilde.
  change (String "~" (String "/" s) +:+ "/" +:+ binary)
    with (String "~" (String "/" (s +:+ "/" +:+ binary))).
  generalize (s +:+ "/" +:+ binary) as rest. intros rest.
  unfold expanduser, parse_path, is_absolute.
  cbn [root parts leading_slashes split_slash].
  change (Ascii.eqb "~" slash) with false.
  change (Ascii.eqb "/" slash) with true. cbv iota.
  rewrite filter_cons_True by done.
  change (starts_with_tilde "~") with true.
  change (negb (negb ("" =? "")%string) && true) with true. cbv iota.
  change ("~" =? "~")%string with true. cbv iota.
  assert (Hnt : starts_with_tilde (home env) = false).
  { unfold starts_with_tilde. destruct (home env) as [|c h]; [done|].
    cbn [String.prefix] in *.
    destruct (ascii_dec "/" c) as [<-|]; [|done].
    by destruct (ascii_dec "~" "/"). }
  rewrite Hnt. intros [= <-].
  apply absolute_path_str. cbn [root].
  pose proof (parse_path_root (home env)
                (prefix_slash_absolute _ Hhome)) as Hr.
  exact Hr.
Qed.

Lemma find_binary_cons env binaries_path binary rest :
  Editor._find_binary env binaries_path (binary :: rest) =
    (p ← Editor.candidate env binaries_path binary;
     if is_file env p then Ok (Some (path_str p))
     else Editor._find_binary env binaries_path rest).
Proof. done. Qed.

Lemma find_binary_Some env binaries_path binaries s :
  Editor._find_binary env binaries_path binaries = Ok (Some s) ↔
  ∃ before binary after p,
    binaries = before ++ binary :: after ∧
    Forall (Editor.no_match env binaries_path) before ∧
    Editor.candidate env binaries_path binary = Ok p ∧
    is_file env p = true ∧
    s = path_str p.
Proof.
  induction binaries as [|b rest IH].
  { split; [done|]. intros (before & ? & ? & ? & Heq & _). by destruct before. }
  rewrite find_binary_cons. split.
  - destruct (Editor.candidate env binaries_path b) as [p|e] eqn:Ec; simpl;
      [|done].
    destruct (is_file env p) eqn:Ef.
    + intros [= <-]. exists [], b, rest, p. by repeat split.
    + intros (before & binary & after & p' & -> & Hno & Hc & Hf & ->)%IH.
      exists (b :: before), binary, after, p'.
      repeat split; try done. constructor; [by exists p|done].
  - intros ([|b' before] & binary & after & p' & Heq & Hno & Hc & Hf & ->);
      simpl in Heq; injection Heq as <- ->.
    + rewrite Hc. simpl. by rewrite Hf.
    + inversion Hno as [|? ? (q & Hq & Hqf) Hno']; subst.
      rewrite Hq. simpl. rewrite Hqf. apply IH.
      by exists before, binary, after, p'.
Qed.

Lemma find_binary_None env binaries_path binaries :
  Editor._find_binary env binaries_path binaries = Ok None ↔
  Forall (Editor.no_match env binaries_path) binaries.
Proof.
  induction binaries as [|b rest IH]; [by split; [constructor|]|].
  rewrite find_binary_cons. split.
  - destruct (Editor.candidate env binaries_path b) as [p|e] eqn:Ec; simpl;
      [|done].
    destruct (is_file env p) eqn:Ef; [done|].
    intros Hrest%IH. constructor; [by exists p|done].
  - inversion 1 as [|? ? (q & Hq & Hqf) Hno']; subst.
    rewrite Hq. simpl. rewrite Hqf. by apply IH.
Qed.

(** C9 (amended).  [_find_binary] returns the path string of the first
    candidate, in list order, whose home-expanded path
    [<binaries_path>/<name>] is a regular file, whatever follows it in the
    list, and [None] when every candidate expands to a path that is not a
    regular file.  The string is an absolute path when [binaries_path]
    starts with a slash, or starts with [~/] while the home directory is
    absolute.  [__init__] keeps exactly the editors whose binary was
    found. *)
Theorem find_binary_first_match (env : Env) (binaries_path : string)
    (binaries : list string) :
  (∀ s, Editor._find_binary env binaries_path binaries = Ok (Some s) ↔
     ∃ before binary after p,
       binaries = before ++ binary :: after ∧
       Forall (Editor.no_match env binaries_path) before ∧
       Editor.candidate env binaries_path binary = Ok p ∧
       is_file env p = true ∧
       s = path_str p) ∧
  (Editor._find_binary env binaries_path binaries = Ok None ↔
     Forall (Editor.no_match env binaries_path) binaries) ∧
  (String.prefix "/" binaries_path = true ∨
   String.prefix "~/" binaries_path = true ∧ String.prefix "/" (home env) = true →
   ∀ s, Editor._find_binary env binaries_path binaries = Ok (Some s) →
        String.prefix "/" s = true ∧ is_absolute (parse_path s) = true) ∧
  (∀ preferences self,
     KeywordQueryEventListener.__init__ env preferences = Ok self →
     ∃ path all,
       preferences !! "binaries" = Some path ∧
       mapM (KeywordQueryEventListener.make_editor env path)
            KeywordQueryEventListener.registry = Ok all ∧
       KeywordQueryEventListener.editors self =
         filter (λ e, Editor.binary e ≠ None) all).
Proof.
  split; [intros s; apply find_binary_Some|].
  split; [apply find_binary_None|]. split.
  - intros Habs s Hs.
    apply find_binary_Some in Hs
      as (before & binary & after & p & _ & _ & Hc & _ & ->).
    assert (Hp : String.prefix "/" (path_str p) = true).
    { destruct Habs as [Habs|[Htilde Hhome]];
        [by eapply candidate_absolute|by eapply candidate_home_absolute]. }
    split; [done|]. by apply prefix_slash_absolute.
  - intros preferences self H. unfold KeywordQueryEventListener.__init__ in H.
    apply bind_Ok in H as (path & Hpath & H).
    apply bind_Ok in H as (all & Hall & [= <-]).
    unfold getitem in Hpath.
    destruct (preferences !! "binaries") as [path'|]; [|done].
    injection Hpath as ->.
    exists path, all. split; [done|]. split; [done|]. cbn [KeywordQueryEventListener.editors].
    apply list_filter_iff. intros e.
    unfold KeywordQueryEventListener.installed.
    destruct (Editor.binary e); naive_solver.
Qed.

Lemma find_binary_first_match_witness :
  Editor._find_binary Demo.demo_env "/opt/bin" ["charm"; "pycharm"; "pycharm-eap"]
    = Ok (Some "/opt/bin/pycharm") ∧
  is_file Demo.demo_env (parse_path "/opt/bin/pycharm-eap") = true ∧
  (String.prefix "/" "/opt/bin/pycharm" = true ∧
   is_absolute (parse_path "/opt/bin/pycharm") = true) ∧
  Editor._find_binary Demo.demo_env "~/bin" ["clion"]
    = Ok (Some "/home/u/bin/clion") ∧
  (String.prefix "/" "/home/u/bin/clion" = true ∧
   is_absolute (parse_path "/home/u/bin/clion") = true).
Proof.
  assert (H : Editor._find_binary Demo.demo_env "/opt/bin"
                ["charm"; "pycharm"; "pycharm-eap"] = Ok (Some "/opt/bin/pycharm"))
    by by vm_compute.
  assert (H' : Editor._find_binary Demo.demo_env "~/bin" ["clion"]
               = Ok (Some "/home/u/bin/clion")) by by vm_compute.
  split; [exact H|]. split; [by vm_compute|].
  destruct (find_binary_first_match Demo.demo_env "/opt/bin"
              ["charm"; "pycharm"; "pycharm-eap"]) as (_ & _ & Habs & _).
  destruct (find_binary_first_match Demo.demo_env "~/bin" ["clion"])
    as (_ & _ & Habs' & _).
  split; [exact (Habs (or_introl eq_refl) _ H)|]. split; [exact H'|].
  exact (Habs' (or_intror (conj eq_refl eq_refl)) _ H').
Defined.

(** C9 as stated fails for a relative directory: the candidate that is found
    is returned as a relative path. *)
Lemma find_binary_relative_path :
  Editor._find_binary Demo.demo_env "bin" ["clion"] = Ok (Some "bin/clion") ∧
  is_absolute (parse_path "bin/clion") = false ∧
  Editor._find_binary Demo.demo_env "~nobody/bin" ["clion"] = Raise RuntimeError.
Proof. repeat split; by vm_compute. Qed.

(** ** The query engine *)

Section sort_by_key_facts.
Context {A : Type} (key : A → Z).

Lemma sort_by_key_reverse_Permutation l : sort_by_key_reverse key l ≡ₚ l.
Proof. apply sorted_Permutation. Qed.

Lemma sort_by_key_reverse_sorted l :
  StronglySorted (λ a b, key b ≤ key a) (sort_by_key_reverse key l).
Proof.
  unfold sort_by_key_reverse.
  pose proof (sorted_StronglySorted (λ x y : A, key y <=? key x)) as Hs.
  specialize (Hs ltac:(intros x y; simpl; lia) ltac:(intros x y z; simpl; lia) l).
  induction Hs as [|x s Hs IH Hx]; constructor; [done|].
  eapply Forall_impl; [exact Hx|]. intros y. simpl. lia.
Qed.

(** Stability: the elements of one key keep their order. *)
Lemma sort_by_key_reverse_stable l k :
  filter (λ x, key x = k) (sort_by_key_reverse key l) =
  filter (λ x, key x = k) l.
Proof.
  apply (sorted_filter _ (λ x, key x = k)). intros x y -> ->. lia.
Qed.

(** A list sorted by decreasing key is determined by the order of the
    elements of each key. *)
Lemma sorted_stable_unique (l1 l2 : list A) :
  StronglySorted (λ a b, key b ≤ key a) l1 →
  StronglySorted (λ a b, key b ≤ key a) l2 →
  (∀ k, filter (λ x, key x = k) l1 = filter (λ x, key x = k) l2) →
  l1 = l2.
Proof.
  intros Hs1. revert l2. induction Hs1 as [|x l1 Hs1 IH Hx]; intros l2 Hs2 Hf.
  - destruct l2 as [|y l2]; [done|].
    specialize (Hf (key y)). rewrite filter_nil, filter_cons_True in Hf; done.
  - destruct Hs2 as [|y l2 Hs2 Hy].
    { specialize (Hf (key x)). rewrite filter_nil, filter_cons_True in Hf; done. }
    assert (Hxin : x ∈ y :: l2).
    { pose proof (Hf (key x)) as H. rewrite filter_cons_True in H by done.
      assert (x ∈ filter (λ z, key z = key x) (y :: l2)) as Hin
        by (rewrite <-H; left).
      by apply list_elem_of_filter in Hin as [_ ?]. }
    assert (Hyin : y ∈ x :: l1).
    { pose proof (Hf (key y)) as H.
      rewrite (filter_cons_True _ y) in H by done.
      assert (y ∈ filter (λ z, key z = key y) (x :: l1)) as Hin
        by (rewrite H; left).
      by apply list_elem_of_filter in Hin as [_ ?]. }
    assert (Hk : key x = key y).
    { rewrite Forall_forall in Hx, Hy.
      apply elem_of_cons in Hxin as [->|Hxin]; [done|].
      apply elem_of_cons in Hyin as [->|Hyin]; [done|].
      specialize (Hx _ Hyin). specialize (Hy _ Hxin). lia. }
    assert (x = y) as <-.
    { specialize (Hf (key x)).
      rewrite filter_cons_True in Hf by done.
      rewrite filter_cons_True in Hf by done. by injection Hf. }
    f_equal. apply IH; [done|]. intros k. specialize (Hf k).
    rewrite !filter_cons in Hf. destruct (decide (key x = k)); [|done].
    by injection Hf.
Qed.

End sort_by_key_facts.

Lemma slice_to_prefix {A} n (l : list A) : slice_to n l `prefix_of` l.
Proof. unfold slice_to. destruct (0 <=? n); apply prefix_take. Qed.

Lemma slice_to_length {A} n (l : list A) :
  0 ≤ n → Z.of_nat (length (slice_to n l)) ≤ n.
Proof.
  intros Hn. unfold slice_to. rewrite (proj2 (Z.leb_le 0 n) Hn).
  rewrite length_take. lia.
Qed.

Lemma collect_mapM env query editors acc :
  KeywordQueryEventListener.collect env query editors acc =
  match mapM (KeywordQueryEventListener.editor_pairs env query) editors with
  | Ok ls => Ok (acc ++ concat ls)
  | Raise e => Raise e
  end.
Proof.
  revert acc. induction editors as [|e es IH]; intros acc; simpl.
  { by rewrite app_nil_r. }
  destruct (KeywordQueryEventListener.editor_pairs env query e) as [l|]; simpl;
    [|done].
  rewrite IH.
  destruct (mapM (KeywordQueryEventListener.editor_pairs env query) es); simpl;
    [|done].
  by rewrite app_assoc.
Qed.

(** The pairs that an editor contributes are its projects, in the order of
    [list_projects], that exist on disk and whose name the query finds. *)
Lemma editor_pairs_Ok env query e l :
  KeywordQueryEventListener.editor_pairs env query e = Ok l →
  ∃ ps,
    Editor.list_projects env e = Ok ps ∧
    l = pair e <$>
        filter (λ p, re_search env query (Project.name p) = Ok true)
          (filter (λ p, path_exists env (parse_path (Project.path p)) = true) ps).
Proof.
  unfold KeywordQueryEventListener.editor_pairs.
  intros (ps & Hps & H)%bind_Ok. apply bind_Ok in H as (ms & Hms & [= <-]).
  exists ps. split; [done|]. by apply filterM_Ok in Hms as [_ ->].
Qed.

(** [ranked_pairs] in one piece: the loop, the sort, then the limit. *)
Lemma ranked_pairs_unfold env self query :
  KeywordQueryEventListener.ranked_pairs env self query =
  match mapM (KeywordQueryEventListener.editor_pairs env query)
             (KeywordQueryEventListener.editors self) with
  | Raise e => Raise e
  | Ok ls =>
      match KeywordQueryEventListener.preferences self !! "item_limit" with
      | None => Raise KeyError
      | Some v =>
          match int v with
          | Raise e => Raise e
          | Ok n =>
              Ok (slice_to n
                    (sort_by_key_reverse KeywordQueryEventListener.pair_key
                       (concat ls)))
          end
      end
  end.
Proof.
  unfold KeywordQueryEventListener.ranked_pairs. rewrite collect_mapM.
  destruct (mapM _ _) as [ls|]; simpl; [|done].
  unfold getitem. destruct (_ !! "item_limit") as [v|]; simpl; [|done].
  by destruct (int v).
Qed.

Lemma ranked_pairs_Ok env self query res :
  KeywordQueryEventListener.ranked_pairs env self query = Ok res →
  ∃ ls v n,
    mapM (KeywordQueryEventListener.editor_pairs env query)
         (KeywordQueryEventListener.editors self) = Ok ls ∧
    KeywordQueryEventListener.preferences self !! "item_limit" = Some v ∧
    int v = Ok n ∧
    res = slice_to n
            (sort_by_key_reverse KeywordQueryEventListener.pair_key (concat ls)).
Proof.
  rewrite ranked_pairs_unfold.
  destruct (mapM _ _) as [ls|]; [|done].
  destruct (_ !! "item_limit") as [v|]; [|done].
  destruct (int v) as [n|] eqn:En; [|done].
  intros [= <-]. by exists ls, v, n.
Qed.

Lemma on_event_unfold env self query :
  KeywordQueryEventListener.on_event env self query =
  match KeywordQueryEventListener.ranked_pairs env self query with
  | Ok pairs => Ok (KeywordQueryEventListener.render <$> pairs)
  | Raise e => Raise e
  end.
Proof. done. Qed.

Lemma elem_of_concat {A} (x : A) (ls : list (list A)) :
  x ∈ concat ls ↔ ∃ l, l ∈ ls ∧ x ∈ l.
Proof.
  rewrite list_elem_of_In, in_concat. split.
  - intros (l & Hl & Hx). exists l. by rewrite !list_elem_of_In.
  - intros (l & Hl & Hx). exists l. by rewrite <-!list_elem_of_In.
Qed.


(** C6.  With a limit that is not negative, the result of a query (the
    pairs that [on_event] renders) is sorted by decreasing time stamp, is no
    longer than the limit, and is
    made of the greatest elements of what the loop collected: together
    with the elements left out it is a permutation of the collected pairs,
    and no element left out has a greater time stamp than one kept. *)
Theorem ranked_pairs_sorted_and_bounded (env : Env)
    (self : KeywordQueryEventListener.t) (query : string)
    (res : list (Editor.t * Project.t)) (v : string) (n : Z) :
  KeywordQueryEventListener.ranked_pairs env self query = Ok res →
  KeywordQueryEventListener.preferences self !! "item_limit" = Some v →
  int v = Ok n →
  0 ≤ n →
  KeywordQueryEventListener.on_event env self query
    = Ok (KeywordQueryEventListener.render <$> res) ∧
  StronglySorted (λ a b, KeywordQueryEventListener.pair_key b
                         ≤ KeywordQueryEventListener.pair_key a) res ∧
  Z.of_nat (length res) ≤ n ∧
  ∃ merged dropped,
    KeywordQueryEventListener.collect env query
      (KeywordQueryEventListener.editors self) [] = Ok merged ∧
    res ++ dropped ≡ₚ merged ∧
    ∀ a b, a ∈ res → b ∈ dropped →
           KeywordQueryEventListener.pair_key b
           ≤ KeywordQueryEventListener.pair_key a.
Proof.
  intros Hres Hv Hn Hpos. split; [by rewrite on_event_unfold, Hres|].
  apply ranked_pairs_Ok in Hres as (ls & v' & n' & Hls & Hv' & Hn' & ->).
  assert (v' = v) as -> by congruence. assert (n' = n) as -> by congruence.
  set (s := sort_by_key_reverse KeywordQueryEventListener.pair_key (concat ls)).
  destruct (slice_to_prefix n s) as [dropped Hs].
  pose proof (sort_by_key_reverse_sorted KeywordQueryEventListener.pair_key
                (concat ls)) as Hsorted.
  fold s in Hsorted. rewrite Hs in Hsorted.
  apply StronglySorted_app in Hsorted as (Hcross & Hres & _).
  split; [done|]. split; [by apply slice_to_length|].
  exists (concat ls), dropped. split; [by rewrite collect_mapM, Hls|].
  split; [|by eauto].
  rewrite <-Hs. apply sort_by_key_reverse_Permutation.
Qed.

Lemma ranked_pairs_sorted_and_bounded_witness :
  let self := Demo.listener "~/bin" "2" [Demo.clion "/home/u/bin/clion"] in
  KeywordQueryEventListener.__init__ Demo.demo_env (Demo.prefs "~/bin" "2")
    = Ok self ∧
  Demo.summary (KeywordQueryEventListener.ranked_pairs Demo.demo_env
                  (Demo.listener "~/bin" "10" [Demo.clion "/home/u/bin/clion"])
                  "")
    = Ok [("CLion", "c", 200); ("CLion", "a", 100); ("CLion", "b", 50)] ∧
  ∃ res,
    Demo.summary (Ok res) = Ok [("CLion", "c", 200); ("CLion", "a", 100)] ∧
    KeywordQueryEventListener.on_event Demo.demo_env self ""
      = Ok (KeywordQueryEventListener.render <$> res) ∧
    StronglySorted (λ a b, KeywordQueryEventListener.pair_key b
                           ≤ KeywordQueryEventListener.pair_key a) res ∧
    Z.of_nat (length res) ≤ 2 ∧
    ∃ merged dropped,
      KeywordQueryEventListener.collect Demo.demo_env ""
        (KeywordQueryEventListener.editors self) [] = Ok merged ∧
      res ++ dropped ≡ₚ merged ∧
      ∀ a b, a ∈ res → b ∈ dropped →
             KeywordQueryEventListener.pair_key b
             ≤ KeywordQueryEventListener.pair_key a.
Proof.
  intros self. split; [by vm_compute|]. split; [by vm_compute|].
  destruct (KeywordQueryEventListener.ranked_pairs Demo.demo_env self "")
    as [res|] eqn:Hres; [|by vm_compute in Hres].
  exists res. split.
  - assert (Demo.summary
              (KeywordQueryEventListener.ranked_pairs Demo.demo_env self "")
            = Ok [("CLion", "c", 200); ("CLion", "a", 100)]) as H
      by by vm_compute.
    by rewrite Hres in H.
  - apply (ranked_pairs_sorted_and_bounded Demo.demo_env self "" res "2" 2);
      [done|by vm_compute|by vm_compute|lia].
Defined.

(** C7.  Every pair of the result, hence every item handed to the
    launcher, names a project path that exists in the filesystem of the
    query. *)
Theorem surfaced_projects_exist (env : Env)
    (self : KeywordQueryEventListener.t) (query : string)
    (items : list ExtensionResultItem) :
  KeywordQueryEventListener.on_event env self query = Ok items →
  ∃ res,
    KeywordQueryEventListener.ranked_pairs env self query = Ok res ∧
    items = KeywordQueryEventListener.render <$> res ∧
    Forall (λ pr, path_exists env (parse_path (Project.path (snd pr))) = true)
           res ∧
    Forall (λ it, path_exists env (parse_path (item_description it)) = true)
           items.
Proof.
  rewrite on_event_unfold.
  destruct (KeywordQueryEventListener.ranked_pairs env self query)
    as [res|] eqn:Hres; [|done].
  intros [= <-]. exists res. split; [done|]. split; [done|].
  assert (Hall : Forall (λ pr, path_exists env
                                 (parse_path (Project.path (snd pr))) = true) res).
  { apply ranked_pairs_Ok in Hres as (ls & v & n & Hls & _ & _ & ->).
    apply Forall_forall. intros pr Hpr.
    destruct (slice_to_prefix n
                (sort_by_key_reverse KeywordQueryEventListener.pair_key
                   (concat ls))) as [k Hk].
    assert (Hpr' : pr ∈ sort_by_key_reverse KeywordQueryEventListener.pair_key
                          (concat ls)).
    { rewrite Hk. apply elem_of_app. by left. }
    clear Hpr Hk. rename Hpr' into Hpr.
    rewrite sort_by_key_reverse_Permutation in Hpr.
    apply elem_of_concat in Hpr as (l & Hl & Hpr).
    apply mapM_Ok in Hls.
    apply list_elem_of_lookup in Hl as [i Hi].
    destruct (Forall2_lookup_r _ _ _ _ _ Hls Hi) as (e & _ & He).
    apply editor_pairs_Ok in He as (ps & _ & ->).
    apply list_elem_of_fmap in Hpr as (p & -> & Hp). simpl.
    apply list_elem_of_filter in Hp as [_ Hp].
    by apply list_elem_of_filter in Hp as [Hp _]. }
  split; [done|].
  rewrite Forall_fmap. eapply Forall_impl; [exact Hall|].
  by intros [e p].
Qed.

Lemma surfaced_projects_exist_witness :
  let self := Demo.listener "/opt/bin" "10"
                [Demo.clion "/opt/bin/clion"; Demo.pycharm] in
  path_exists Demo.demo_env (parse_path "/home/u/proj/gone") = false ∧
  Demo.summary (KeywordQueryEventListener.ranked_pairs Demo.demo_env self "")
    = Ok [("CLion", "c", 200); ("PyCharm", "e", 150); ("CLion", "a", 100);
          ("PyCharm", "d", 100); ("CLion", "b", 50)] ∧
  ∃ items res,
    KeywordQueryEventListener.on_event Demo.demo_env self "" = Ok items ∧
    KeywordQueryEventListener.ranked_pairs Demo.demo_env self "" = Ok res ∧
    items = KeywordQueryEventListener.render <$> res ∧
    Forall (λ pr, path_exists Demo.demo_env
                    (parse_path (Project.path (snd pr))) = true) res ∧
    Forall (λ it, path_exists Demo.demo_env
                    (parse_path (item_description it)) = true) items.
Proof.
  intros self. split; [by vm_compute|]. split; [by vm_compute|].
  destruct (KeywordQueryEventListener.on_event Demo.demo_env self "")
    as [items|] eqn:Hitems; [|by vm_compute in Hitems].
  exists items.
  destruct (surfaced_projects_exist Demo.demo_env self "" items Hitems)
    as (res & H). by exists res.
Defined.

(** C2 as stated fails: a result limit that is not a numeral passes
    configuration loading and makes the query raise. *)
Lemma nonnumeric_limit_raises_in_query :
  let self := Demo.listener "~/bin" "abc" [Demo.clion "/home/u/bin/clion"] in
  int "abc" = Raise ValueError ∧
  KeywordQueryEventListener.__init__ Demo.demo_env (Demo.prefs "~/bin" "abc")
    = Ok self ∧
  KeywordQueryEventListener.on_event Demo.demo_env self "" = Raise ValueError.
Proof. repeat split; by vm_compute. Qed.

(** C2 (amended).  Configuration loading does not read the result limit:
    it succeeds with the same editors whatever the limit is.  The limit is
    converted in every query, after the projects have been collected and
    sorted: a value that [int] accepts gives the truncated list, any other
    value makes the query raise [ValueError]. *)
Theorem item_limit_read_in_query (env : Env) :
  (∀ preferences self v,
     KeywordQueryEventListener.__init__ env preferences = Ok self →
     KeywordQueryEventListener.__init__ env (<["item_limit" := v]> preferences)
       = Ok {| KeywordQueryEventListener.preferences :=
                 <["item_limit" := v]> preferences;
               KeywordQueryEventListener.editors :=
                 KeywordQueryEventListener.editors self |}) ∧
  (∀ self query merged v,
     KeywordQueryEventListener.collect env query
       (KeywordQueryEventListener.editors self) [] = Ok merged →
     KeywordQueryEventListener.preferences self !! "item_limit" = Some v →
     (∀ n, int v = Ok n →
        KeywordQueryEventListener.ranked_pairs env self query =
          Ok (slice_to n (sort_by_key_reverse
                            KeywordQueryEventListener.pair_key merged))) ∧
     ((∀ n, int v ≠ Ok n) →
        KeywordQueryEventListener.ranked_pairs env self query = Raise ValueError ∧
        KeywordQueryEventListener.on_event env self query = Raise ValueError)).
Proof.
  split.
  - intros preferences self v H.
    unfold KeywordQueryEventListener.__init__ in *.
    apply bind_Ok in H as (path & Hpath & H).
    apply bind_Ok in H as (all & Hall & [= <-]).
    unfold getitem in *. rewrite lookup_insert_ne by done.
    destruct (preferences !! "binaries") as [path'|]; [|done].
    injection Hpath as ->.
    change (Ok path ≫= ?f) with (f path). cbv beta. by rewrite Hall.
  - intros self query merged v Hmerged Hv.
    rewrite collect_mapM in Hmerged.
    rewrite on_event_unfold, ranked_pairs_unfold.
    destruct (mapM _ _) as [ls|]; [|done].
    injection Hmerged as <-. rewrite Hv. split.
    + intros n ->. done.
    + intros Hno. destruct (int v) as [n|e] eqn:E; [by destruct (Hno n)|].
      by apply int_raises in E as ->.
Qed.

Lemma item_limit_read_in_query_witness :
  let clion := Demo.clion "/home/u/bin/clion" in
  KeywordQueryEventListener.__init__ Demo.demo_env
    (<["item_limit" := "abc"]> (Demo.prefs "~/bin" "2"))
    = Ok {| KeywordQueryEventListener.preferences :=
              <["item_limit" := "abc"]> (Demo.prefs "~/bin" "2");
            KeywordQueryEventListener.editors := [clion] |} ∧
  (∃ merged,
     KeywordQueryEventListener.collect Demo.demo_env "" [clion] [] = Ok merged ∧
     KeywordQueryEventListener.ranked_pairs Demo.demo_env
       (Demo.listener "~/bin" "2" [clion]) ""
       = Ok (slice_to 2 (sort_by_key_reverse
                           KeywordQueryEventListener.pair_key merged))) ∧
  Demo.summary (KeywordQueryEventListener.ranked_pairs Demo.demo_env
                  (Demo.listener "~/bin" "2" [clion]) "")
    = Ok [("CLion", "c", 200); ("CLion", "a", 100)] ∧
  KeywordQueryEventListener.on_event Demo.demo_env
    (Demo.listener "~/bin" "abc" [clion]) "" = Raise ValueError.
Proof.
  intros clion.
  destruct (item_limit_read_in_query Demo.demo_env) as [Hload Hquery].
  destruct (KeywordQueryEventListener.collect Demo.demo_env "" [clion] [])
    as [merged|] eqn:Hm; [|by vm_compute in Hm].
  split; [|split; [|split]].
  - apply (Hload (Demo.prefs "~/bin" "2") (Demo.listener "~/bin" "2" [clion])).
    by vm_compute.
  - exists merged. split; [done|].
    destruct (Hquery (Demo.listener "~/bin" "2" [clion]) "" merged "2" Hm)
      as [Hok _]; [by vm_compute|].
    apply Hok. by vm_compute.
  - by vm_compute.
  - destruct (Hquery (Demo.listener "~/bin" "abc" [clion]) "" merged "abc" Hm)
      as [_ Hbad]; [by vm_compute|].
    apply Hbad. intros n. by vm_compute.
Defined.





Lemma slice_to_fmap {A B} (f : A → B) n (l : list A) :
  f <$> slice_to n l = slice_to n (f <$> l).
Proof.
  unfold slice_to. rewrite length_fmap. by destruct (0 <=? n); rewrite fmap_take.
Qed.

(** The time stamps of the sorted list depend on the collected pairs as a
    multiset only. *)
Lemma sort_by_key_reverse_keys {A} (key : A → Z) (l1 l2 : list A) :
  l1 ≡ₚ l2 →
  key <$> sort_by_key_reverse key l1 = key <$> sort_by_key_reverse key l2.
Proof.
  intros Hp.
  apply (StronglySorted_unique_strong (λ x y : Z, y ≤ x)).
  - intros x y _ _ ? ?. lia.
  - eapply StronglySorted_fmap; [|apply sort_by_key_reverse_sorted]. done.
  - eapply StronglySorted_fmap; [|apply sort_by_key_reverse_sorted]. done.
  - by rewrite !sort_by_key_reverse_Permutation, Hp.
Qed.

(** Two collections without a common time stamp sort to the same list in
    either order of concatenation. *)
Lemma sort_by_key_reverse_app_comm {A} (key : A → Z) (la lb : list A) :
  (∀ x y, x ∈ la → y ∈ lb → key x ≠ key y) →
  sort_by_key_reverse key (la ++ lb) = sort_by_key_reverse key (lb ++ la).
Proof.
  intros Hdis. apply (sorted_stable_unique key);
    [apply sort_by_key_reverse_sorted..|].
  intros k. rewrite !sort_by_key_reverse_stable, !filter_app.
  destruct (filter (λ x, key x = k) la) as [|x fa] eqn:Ea.
  { by rewrite app_nil_r. }
  destruct (filter (λ x, key x = k) lb) as [|y fb] eqn:Eb.
  { by rewrite app_nil_r. }
  assert (Hx : x ∈ filter (λ x, key x = k) la) by (rewrite Ea; left).
  assert (Hy : y ∈ filter (λ x, key x = k) lb) by (rewrite Eb; left).
  apply list_elem_of_filter in Hx as [Hkx Hx], Hy as [Hky Hy].
  destruct (Hdis x y Hx Hy). congruence.
Qed.

Lemma mapM_two {A B} (f : A → result B) x y u v :
  f x = Ok u → f y = Ok v → mapM f [x; y] = Ok [u; v].
Proof. intros Hx Hy. simpl. by rewrite Hx, Hy. Qed.

(** C8 as stated fails: CLion and PyCharm both have a project opened at
    time 100, and these two swap places when the editors are scanned in
    the other order. *)
Lemma scan_order_changes_ranking :
  let ab := Demo.listener "/opt/bin" "10"
              [Demo.clion "/opt/bin/clion"; Demo.pycharm] in
  let ba := Demo.listener "/opt/bin" "10"
              [Demo.pycharm; Demo.clion "/opt/bin/clion"] in
  Demo.summary (KeywordQueryEventListener.ranked_pairs Demo.demo_env ab "")
    = Ok [("CLion", "c", 200); ("PyCharm", "e", 150); ("CLion", "a", 100);
          ("PyCharm", "d", 100); ("CLion", "b", 50)] ∧
  Demo.summary (KeywordQueryEventListener.ranked_pairs Demo.demo_env ba "")
    = Ok [("CLion", "c", 200); ("PyCharm", "e", 150); ("PyCharm", "d", 100);
          ("CLion", "a", 100); ("CLion", "b", 50)] ∧
  KeywordQueryEventListener.ranked_pairs Demo.demo_env ab "" ≠
  KeywordQueryEventListener.ranked_pairs Demo.demo_env ba "".
Proof.
  intros ab ba. split; [by vm_compute|]. split; [by vm_compute|].
  intros H. apply (f_equal Demo.summary) in H. by vm_compute in H.
Qed.

(** C8 (amended).  For two editors scanned in either order, a query that
    succeeds in one order succeeds in the other with the same sequence of
    time stamps; the two results are the same sequence of projects when no
    project of one editor has the time stamp of a project of the other. *)
Theorem ranking_independent_of_scan_order (env : Env)
    (preferences : gmap string string) (a b : Editor.t) (query : string)
    (la lb res : list (Editor.t * Project.t)) :
  KeywordQueryEventListener.editor_pairs env query a = Ok la →
  KeywordQueryEventListener.editor_pairs env query b = Ok lb →
  KeywordQueryEventListener.ranked_pairs env
    {| KeywordQueryEventListener.preferences := preferences;
       KeywordQueryEventListener.editors := [a; b] |} query = Ok res →
  ∃ res',
    KeywordQueryEventListener.ranked_pairs env
      {| KeywordQueryEventListener.preferences := preferences;
         KeywordQueryEventListener.editors := [b; a] |} query = Ok res' ∧
    KeywordQueryEventListener.pair_key <$> res =
      KeywordQueryEventListener.pair_key <$> res' ∧
    ((∀ x y, x ∈ la → y ∈ lb →
        KeywordQueryEventListener.pair_key x ≠ KeywordQueryEventListener.pair_key y) →
     res = res').
Proof.
  intros Ha Hb. rewrite !ranked_pairs_unfold.
  cbn [KeywordQueryEventListener.editors KeywordQueryEventListener.preferences].
  rewrite (mapM_two _ _ _ _ _ Ha Hb), (mapM_two _ _ _ _ _ Hb Ha).
  cbn [concat]. rewrite !app_nil_r.
  destruct (preferences !! "item_limit") as [v|]; [|done].
  destruct (int v) as [n|]; [|done].
  intros [= <-]. eexists. split; [done|]. split.
  - rewrite !slice_to_fmap. f_equal. apply sort_by_key_reverse_keys.
    apply Permutation_app_comm.
  - intros Hdis. f_equal. by apply sort_by_key_reverse_app_comm.
Qed.

Lemma ranking_independent_of_scan_order_witness :
  let x := Demo.x_editor in
  let c := Demo.clion "/opt/bin/clion" in
  ∃ res res',
    KeywordQueryEventListener.ranked_pairs Demo.demo_env
      {| KeywordQueryEventListener.preferences := Demo.prefs "/opt/bin" "10";
         KeywordQueryEventListener.editors := [x; c] |} "" = Ok res ∧
    KeywordQueryEventListener.ranked_pairs Demo.demo_env
      {| KeywordQueryEventListener.preferences := Demo.prefs "/opt/bin" "10";
         KeywordQueryEventListener.editors := [c; x] |} "" = Ok res' ∧
    KeywordQueryEventListener.pair_key <$> res = [200; 100; 50; 2] ∧
    KeywordQueryEventListener.pair_key <$> res =
      KeywordQueryEventListener.pair_key <$> res' ∧
    res = res'.
Proof.
  intros x c.
  destruct (KeywordQueryEventListener.editor_pairs Demo.demo_env "" x)
    as [lx|] eqn:Hx; [|by vm_compute in Hx].
  destruct (KeywordQueryEventListener.editor_pairs Demo.demo_env "" c)
    as [lc|] eqn:Hc; [|by vm_compute in Hc].
  destruct (KeywordQueryEventListener.ranked_pairs Demo.demo_env
      {| KeywordQueryEventListener.preferences := Demo.prefs "/opt/bin" "10";
         KeywordQueryEventListener.editors := [x; c] |} "")
    as [res|] eqn:Hres; [|by vm_compute in Hres].
  destruct (ranking_independent_of_scan_order Demo.demo_env
              (Demo.prefs "/opt/bin" "10") x c "" lx lc res Hx Hc Hres)
    as (res' & Hres' & Hkeys & Heq).
  exists res, res'. split; [done|]. split; [done|]. split.
  { vm_compute in Hres. injection Hres as <-. by vm_compute. }
  split; [done|]. apply Heq.
  vm_compute in Hx, Hc. injection Hx as <-. injection Hc as <-.
  intros p q Hp Hq.
  apply list_elem_of_singleton in Hp as ->.
  repeat (apply elem_of_cons in Hq as [->|Hq]; [by vm_compute|]).
  by apply elem_of_nil in Hq.
Defined.

(** ** The order of the entries in the history file *)







(** The parser by the state of the file. *)
Lemma parse_recent_projects_cases env file :
  match stat env file with
  | inl ENOENT | inr (File NotXml) =>
      Editor._parse_recent_projects env file = Ok []
  | inl ENOTDIR =>
      Editor._parse_recent_projects env file = Raise NotADirectoryError
  | inr (Dir _) =>
      Editor._parse_recent_projects env file = Raise IsADirectoryError
  | inr (File (Xml r)) =>
      Editor._parse_recent_projects env file =
        Editor.entry_projects env (findall_entries r)
  | inr (File (BadEncoding multi_byte)) =>
      Editor._parse_recent_projects env file =
        Raise (if multi_byte then ValueError else LookupError)
  end.
Proof.
  destruct (stat env file) as [[]|[[|r|[]]|es]] eqn:E.
  - apply parse_recent_projects_missing_or_malformed. by left.
  - unfold Editor._parse_recent_projects, ElementTree_parse. by rewrite E.
  - apply parse_recent_projects_missing_or_malformed. by right.
  - by apply parse_recent_projects_document.
  - unfold Editor._parse_recent_projects, ElementTree_parse. by rewrite E.
  - unfold Editor._parse_recent_projects, ElementTree_parse. by rewrite E.
  - unfold Editor._parse_recent_projects, ElementTree_parse. by rewrite E.
Qed.





(** * Further properties of the code *)

(** ** Paths written and read back *)

Lemma append_cons c s t : String c s +:+ t = String c (s +:+ t).
Proof. done. Qed.

Lemma no_slash_cons a c :
  no_slash (String a c) = negb (Ascii.eqb a slash) && no_slash c.
Proof. done. Qed.

Lemma split_slash_nonempty s : split_slash s ≠ [].
Proof.
  destruct s as [|a s]; [done|]. cbn [split_slash].
  destruct (Ascii.eqb a slash); [done|]. by destruct (split_slash s).
Qed.

Lemma split_slash_no_slash s :
  Forall (λ c, no_slash c = true) (split_slash s).
Proof.
  induction s as [|a s IH]; [by repeat constructor|].
  cbn [split_slash]. destruct (Ascii.eqb a slash) eqn:Ea.
  - by constructor.
  - destruct (split_slash s) as [|h t]; [by repeat constructor; rewrite no_slash_cons, Ea|].
    inversion IH; subst. constructor; [|done].
    by rewrite no_slash_cons, Ea.
Qed.

Lemma split_slash_component c : no_slash c = true → split_slash c = [c].
Proof.
  induction c as [|a c IH]; [done|].
  rewrite no_slash_cons. intros [Ha Hc]%andb_true_iff.
  cbn [split_slash]. apply negb_true_iff in Ha. rewrite Ha, (IH Hc). done.
Qed.

Lemma split_slash_app c t :
  no_slash c = true →
  split_slash (c +:+ String slash t) = c :: split_slash t.
Proof.
  induction c as [|a c IH].
  - intros _. change ("" +:+ String slash t) with (String slash t).
    cbn [split_slash]. by rewrite Ascii.eqb_refl.
  - rewrite no_slash_cons. intros [Ha Hc]%andb_true_iff.
    rewrite append_cons. cbn [split_slash].
    apply negb_true_iff in Ha. by rewrite Ha, (IH Hc).
Qed.

Lemma split_join_slash cs :
  cs ≠ [] → Forall (λ c, no_slash c = true) cs →
  split_slash (join_slash cs) = cs.
Proof.
  induction cs as [|c cs IH]; [done|]. intros _ Hall.
  inversion Hall as [|? ? Hc Hcs]; subst.
  destruct cs as [|c' cs].
  - by apply split_slash_component.
  - change (join_slash (c :: c' :: cs))
      with (c +:+ String slash (join_slash (c' :: cs))).
    rewrite split_slash_app by done. f_equal. by apply IH.
Qed.

Lemma leading_slashes_join c cs :
  is_component c = true → no_slash c = true →
  leading_slashes (join_slash (c :: cs)) = 0%nat.
Proof.
  intros Hc Hs. destruct c as [|a c]; [done|].
  rewrite no_slash_cons in Hs. apply andb_true_iff in Hs as [Ha _].
  apply negb_true_iff in Ha.
  destruct cs as [|c' cs].
  - cbn [join_slash leading_slashes]. by rewrite Ha.
  - change (join_slash (String a c :: c' :: cs))
      with (String a (c +:+ String slash (join_slash (c' :: cs)))).
    cbn [leading_slashes]. by rewrite Ha.
Qed.

Lemma filter_components cs :
  Forall (λ c, is_component c = true ∧ no_slash c = true) cs →
  filter (λ c, is_component c = true) cs = cs.
Proof.
  induction 1 as [|c cs [Hc _] _ IH]; [done|].
  by rewrite filter_cons_True, IH.
Qed.

(** [Path(str(p)) == p] *)
Lemma parse_path_str p : path_ok p → parse_path (path_str p) = p.
Proof.
  destruct p as [r cs]. intros [Hr Hcs]. cbn [root parts] in *.
  assert (Hns : Forall (λ c, no_slash c = true) cs).
  { eapply Forall_impl; [exact Hcs|]. by intros c [_ ?]. }
  assert (Hbody : ∀ c cs', cs = c :: cs' →
            leading_slashes (join_slash cs) = 0%nat ∧
            filter (λ c, is_component c = true) (split_slash (join_slash cs)) = cs).
  { intros c cs' ->. inversion Hcs as [|? ? [Hc Hs] _]; subst. split.
    - by apply leading_slashes_join.
    - rewrite split_join_slash by done. by apply filter_components. }
  unfold path_str, parse_path. cbn [root parts].
  destruct Hr as [->|[->| ->]].
  - destruct cs as [|c cs']; [done|].
    destruct (Hbody c cs' eq_refl) as [Hl Hf].
    change ("" +:+ join_slash (c :: cs')) with (join_slash (c :: cs')).
    by rewrite Hl, Hf.
  - change ("/" +:+ join_slash cs) with (String slash (join_slash cs)).
    cbn [leading_slashes split_slash]. rewrite Ascii.eqb_refl.
    destruct cs as [|c cs']; [done|].
    destruct (Hbody c cs' eq_refl) as [Hl Hf].
    rewrite Hl. rewrite filter_cons_False by done. by rewrite Hf.
  - change ("//" +:+ join_slash cs)
      with (String slash (String slash (join_slash cs))).
    cbn [leading_slashes split_slash]. rewrite Ascii.eqb_refl.
    destruct cs as [|c cs']; [done|].
    destruct (Hbody c cs' eq_refl) as [Hl Hf].
    rewrite Hl. rewrite !filter_cons_False by done. by rewrite Hf.
Qed.

Lemma parse_path_ok s : path_ok (parse_path s).
Proof.
  split.
  - unfold parse_path. cbn [root].
    destruct (leading_slashes s) as [|[|[|n]]]; auto.
  - unfold parse_path. cbn [parts].
    apply Forall_forall. intros c [Hc Hin]%list_elem_of_filter.
    split; [done|].
    pose proof (split_slash_no_slash s) as Hall.
    rewrite Forall_forall in Hall. by apply Hall.
Qed.

Lemma expanduser_ok env p q :
  path_ok p → expanduser env p = Ok q → path_ok q.
Proof.
  intros [Hr Hcs]. unfold expanduser.
  destruct (parts p) as [|c rest] eqn:Ep; [by intros [= <-]; split; rewrite ?Ep|].
  destruct (negb (is_absolute p) && starts_with_tilde c);
    [|by intros [= <-]; split; rewrite ?Ep].
  destruct (if (c =? "~")%string then _ else _) as [d|]; [|done].
  destruct (starts_with_tilde d); [done|]. intros [= <-].
  destruct (parse_path_ok d) as [Hrd Hd]. split; [done|]. cbn [parts].
  apply Forall_app. split; [done|]. by inversion Hcs.
Qed.

Lemma find_binary_is_file env binaries_path binaries s :
  Editor._find_binary env binaries_path binaries = Ok (Some s) →
  is_file env (parse_path s) = true.
Proof.
  intros (before & binary & after & p & _ & _ & Hc & Hf & ->)%find_binary_Some.
  rewrite parse_path_str; [done|].
  unfold Editor.candidate in Hc.
  eapply expanduser_ok; [|exact Hc]. apply parse_path_ok.
Qed.

(** X1.  The string that [_find_binary] returns, read back as a path, names
    a regular file, and it is the string of one of the candidates. *)
Theorem find_binary_names_regular_file (env : Env) (binaries_path : string)
    (binaries : list string) (s : string) :
  Editor._find_binary env binaries_path binaries = Ok (Some s) →
  is_file env (parse_path s) = true ∧
  ∃ binary p,
    binary ∈ binaries ∧
    Editor.candidate env binaries_path binary = Ok p ∧
    s = path_str p ∧
    parse_path s = p.
Proof.
  intros H. split; [by eapply find_binary_is_file|].
  apply find_binary_Some in H
    as (before & binary & after & p & -> & _ & Hc & Hf & ->).
  exists binary, p. split; [set_solver|]. split; [done|]. split; [done|].
  apply parse_path_str. unfold Editor.candidate in Hc.
  eapply expanduser_ok; [|exact Hc]. apply parse_path_ok.
Qed.

Lemma find_binary_names_regular_file_witness :
  Editor._find_binary Demo.demo_env "~/bin" ["clion-eap"; "clion"]
    = Ok (Some "/home/u/bin/clion") ∧
  is_file Demo.demo_env (parse_path "/home/u/bin/clion") = true.
Proof.
  assert (H : Editor._find_binary Demo.demo_env "~/bin" ["clion-eap"; "clion"]
              = Ok (Some "/home/u/bin/clion")) by by vm_compute.
  split; [exact H|].
  exact (proj1 (find_binary_names_regular_file Demo.demo_env "~/bin"
                  ["clion-eap"; "clion"] "/home/u/bin/clion" H)).
Defined.

(** ** Outcomes of the history parser *)

(** A raising prefix-free list: the first element that raises decides. *)
Lemma mapM_first_Raise {A B} (f : A → result B) (pre post : list A) x e :
  Forall (λ y, ∃ r, f y = Ok r) pre → f x = Raise e →
  mapM f (pre ++ x :: post) = Raise e.
Proof.
  intros Hpre Hx. induction Hpre as [|y pre [r Hy] _ IH]; simpl.
  - by rewrite Hx.
  - by rewrite Hy, IH.
Qed.

(** X2.  What [_parse_recent_projects] does not absorb: a history path
    that runs through a regular file, a directory in the place of the
    history file, and a history file whose declared encoding the XML parser
    does not read all make it raise. *)
Theorem parse_recent_projects_propagates (env : Env) (file : PurePath) :
  (stat env file = inl ENOTDIR →
   Editor._parse_recent_projects env file = Raise NotADirectoryError) ∧
  ((∃ es, stat env file = inr (Dir es)) →
   Editor._parse_recent_projects env file = Raise IsADirectoryError) ∧
  (stat env file = inr (File (BadEncoding true)) →
   Editor._parse_recent_projects env file = Raise ValueError) ∧
  (stat env file = inr (File (BadEncoding false)) →
   Editor._parse_recent_projects env file = Raise LookupError).
Proof.
  pose proof (parse_recent_projects_cases env file) as Hc.
  split; [|split; [|split]].
  - intros H. by rewrite H in Hc.
  - intros [es H]. by rewrite H in Hc.
  - intros H. by rewrite H in Hc.
  - intros H. by rewrite H in Hc.
Qed.

Lemma parse_recent_projects_propagates_witness :
  let history (generation : string) :=
    parse_path ("/home/u/.config/JetBrains/" +:+ generation
                +:+ "/options/recentProjects.xml") in
  Editor._parse_recent_projects Demo.demo_env (history "CLion.log")
    = Raise NotADirectoryError ∧
  Editor._parse_recent_projects Fixtures.odd_env (history "DataGrip2023.1")
    = Raise IsADirectoryError ∧
  Editor._parse_recent_projects Fixtures.odd_env (history "GoLand2023.1")
    = Raise ValueError ∧
  Editor._parse_recent_projects Fixtures.odd_env (history "WebStorm2023.1")
    = Raise LookupError.
Proof.
  intros history. split; [|split; [|split]].
  - apply (parse_recent_projects_propagates Demo.demo_env). by vm_compute.
  - apply (parse_recent_projects_propagates Fixtures.odd_env).
    exists []. by vm_compute.
  - apply (parse_recent_projects_propagates Fixtures.odd_env). by vm_compute.
  - apply (parse_recent_projects_propagates Fixtures.odd_env). by vm_compute.
Defined.

(** X3.  A history file that does not exist, and a history file at which
    the XML parser reports a syntax error (an empty file, text that is not
    XML, a truncated document), give the empty project list. *)
Theorem parse_recent_projects_absent_or_not_xml (env : Env) (file : PurePath) :
  stat env file = inl ENOENT ∨ stat env file = inr (File NotXml) →
  Editor._parse_recent_projects env file = Ok [].
Proof.
  intros H. pose proof (parse_recent_projects_cases env file) as Hc.
  by destruct H as [H|H]; rewrite H in Hc.
Qed.

Lemma parse_recent_projects_absent_or_not_xml_witness :
  Editor._parse_recent_projects Demo.demo_env
    (parse_path "/home/u/.config/JetBrains/GoLand2023.1/options/recentProjects.xml")
    = Ok [] ∧
  Editor._parse_recent_projects Demo.demo_env
    (parse_path "/home/u/.config/JetBrains/WebStorm2023.1/options/recentProjects.xml")
    = Ok [].
Proof.
  split; apply parse_recent_projects_absent_or_not_xml;
    [right|left]; by vm_compute.
Defined.

Lemma last_Forall {A} (P : A → Prop) (l : list A) (d : A) :
  P d → Forall P l → P (List.last l d).
Proof.
  intros Hd Hl. induction Hl as [|x l Hx Hl IH]; [done|].
  destruct l as [|y l]; [done|]. exact IH.
Qed.

Lemma path_name_no_slash s : no_slash (path_name (parse_path s)) = true.
Proof.
  unfold path_name.
  apply (last_Forall (λ c, no_slash c = true)); [done|].
  destruct (parse_path_ok s) as [_ H].
  eapply Forall_impl; [exact H|]. by intros c [_ ?].
Qed.

Lemma entry_project_Some env entry p :
  Editor.entry_project env entry = Ok (Some p) →
  Project.path p ≠ "" ∧
  Project.path p = Editor.resolved_path env entry ∧
  Project.name p = path_name (parse_path (Project.path p)) ∧
  ∃ o v, find_timestamp entry = Some o ∧ attrib o !! "value" = Some v ∧
         int v = Ok (Project.last_opened p).
Proof.
  unfold Editor.entry_project, Editor.resolved_path, getitem.
  destruct (attrib entry !! "key") as [k|]; [|done].
  change (Ok k ≫= ?f) with (f k). cbv beta.
  change (default "" (Some k)) with k.
  generalize (str_replace "$USER_HOME$" (path_str (Path_home env)) k) as rp.
  intros rp.
  destruct (find_timestamp entry) as [o|]; [|done].
  destruct (attrib o !! "value") as [v|] eqn:Ev; [|done].
  destruct (Editor.truthy rp && Editor.truthy v) eqn:Et; [|done].
  apply andb_true_iff in Et as [Hp%truthy_true _].
  destruct (int v) as [n|] eqn:En; simpl; [|done].
  intros [= <-]. simpl. repeat split; try done. by exists o, v.
Qed.

(** X4.  Whatever the document, every project that the parser returns has a
    path that is not empty, a name that is the last segment of that path
    and holds no slash, and a time stamp read by [int] from the first
    time stamp option of a selected entry. *)
Theorem parsed_projects_invariant (env : Env) (file : PurePath)
    (projects : list Project.t) :
  Editor._parse_recent_projects env file = Ok projects →
  Forall (λ p,
    Project.path p ≠ "" ∧
    Project.name p = path_name (parse_path (Project.path p)) ∧
    no_slash (Project.name p) = true ∧
    ∃ r entry o v,
      stat env file = inr (File (Xml r)) ∧
      entry ∈ findall_entries r ∧
      Project.path p = Editor.resolved_path env entry ∧
      find_timestamp entry = Some o ∧
      attrib o !! "value" = Some v ∧
      int v = Ok (Project.last_opened p)) projects.
Proof.
  pose proof (parse_recent_projects_cases env file) as Hc.
  destruct (stat env file) as [[]|[[|r|mb]|es]] eqn:E; rewrite Hc; try done;
    try by intros [= <-].
  unfold Editor.entry_projects.
  intros (os & Hos & [= <-])%bind_Ok.
  apply mapM_Ok in Hos. apply Forall_forall. intros p Hp.
  apply list_elem_of_omap in Hp as (o & Ho & Hid). simpl in Hid. subst o.
  apply list_elem_of_lookup in Ho as [i Hi].
  destruct (Forall2_lookup_r _ _ _ _ _ Hos Hi) as (entry & Hentry & He).
  apply entry_project_Some in He as (Hne & Hpath & Hname & o & v & Ho & Hv & Hint).
  split; [done|]. split; [done|].
  split; [rewrite Hname; apply path_name_no_slash|].
  exists r, entry, o, v. repeat split; try done.
  by eapply list_elem_of_lookup_2.
Qed.

Lemma parsed_projects_invariant_witness :
  let file :=
    parse_path "/home/u/.config/JetBrains/CLion2023.2/options/recentProjects.xml" in
  ∃ projects,
    Editor._parse_recent_projects Demo.demo_env file = Ok projects ∧
    Project.name <$> projects = ["a"; "b"; "c"] ∧
    Forall (λ p,
      Project.path p ≠ "" ∧
      Project.name p = path_name (parse_path (Project.path p)) ∧
      no_slash (Project.name p) = true ∧
      ∃ r entry o v,
        stat Demo.demo_env file = inr (File (Xml r)) ∧
        entry ∈ findall_entries r ∧
        Project.path p = Editor.resolved_path Demo.demo_env entry ∧
        find_timestamp entry = Some o ∧
        attrib o !! "value" = Some v ∧
        int v = Ok (Project.last_opened p)) projects.
Proof.
  intros file.
  destruct (Editor._parse_recent_projects Demo.demo_env file)
    as [projects|] eqn:H; [|by vm_compute in H].
  exists projects. split; [done|]. split.
  - vm_compute in H. injection H as <-. by vm_compute.
  - by apply (parsed_projects_invariant Demo.demo_env file).
Defined.

(** ** The home placeholder *)

Lemma prefix_empty s : String.prefix "" s = true.
Proof. by destruct s. Qed.

Lemma replace_from_no_dollar new s :
  no_dollar s = true → replace_from "$USER_HOME$" new 0 s = s.
Proof.
  induction s as [|a s IH]; [done|].
  unfold no_dollar. cbn [list_ascii_of_string forallb].
  intros [Ha Hs]%andb_true_iff. cbn [replace_from String.prefix].
  destruct (ascii_dec "$" a) as [<-|_]; [done|].
  by rewrite (IH Hs).
Qed.

Lemma replace_placeholder new rest :
  no_dollar rest = true →
  str_replace "$USER_HOME$" new ("$USER_HOME$" +:+ rest) = new +:+ rest.
Proof.
  intros Hrest. unfold str_replace.
  change ("$USER_HOME$" +:+ rest)
    with (String "$" (String "U" (String "S" (String "E" (String "R"
           (String "_" (String "H" (String "O" (String "M" (String "E"
           (String "$" rest))))))))))).
  cbn [replace_from String.prefix String.length Nat.pred].
  repeat match goal with
         | |- context [ascii_dec ?a ?a] =>
             destruct (ascii_dec a a) as [_|Hne]; [|by destruct Hne]
         end.
  rewrite prefix_empty. f_equal. by apply replace_from_no_dollar.
Qed.

(** X5.  A key that starts with the placeholder and holds no other dollar
    sign resolves to the home directory followed by the rest of the key; a
    key without a dollar sign resolves to itself. *)
Theorem resolved_path_placeholder (env : Env) (entry : element)
    (key rest : string) :
  attrib entry !! "key" = Some key →
  no_dollar rest = true →
  (key = "$USER_HOME$" +:+ rest →
   Editor.resolved_path env entry = path_str (Path_home env) +:+ rest) ∧
  (key = rest → Editor.resolved_path env entry = key).
Proof.
  intros Hkey Hrest. unfold Editor.resolved_path. rewrite Hkey.
  change (default "" (Some key)) with key. split; intros ->.
  - by apply replace_placeholder.
  - unfold str_replace. destruct rest as [|a rest]; [done|].
    by apply replace_from_no_dollar.
Qed.

Lemma resolved_path_placeholder_witness :
  Editor.resolved_path Demo.demo_env
    (Demo.entry "$USER_HOME$/proj/a" (Some "100")) = "/home/u/proj/a" ∧
  Editor.resolved_path Demo.demo_env (Demo.entry "/srv/e" (Some "150"))
    = "/srv/e".
Proof.
  split.
  - apply (proj1 (resolved_path_placeholder Demo.demo_env
                    (Demo.entry "$USER_HOME$/proj/a" (Some "100"))
                    "$USER_HOME$/proj/a" "/proj/a"
                    ltac:(by vm_compute) ltac:(by vm_compute)) eq_refl).
  - apply (proj2 (resolved_path_placeholder Demo.demo_env
                    (Demo.entry "/srv/e" (Some "150")) "/srv/e" "/srv/e"
                    ltac:(by vm_compute) ltac:(by vm_compute)) eq_refl).
Defined.

(** ** What the query handler returns *)

(** The pairs that the loop collects. *)
Lemma collected_elem env query editors ls e p :
  mapM (KeywordQueryEventListener.editor_pairs env query) editors = Ok ls →
  (e, p) ∈ concat ls ↔
  e ∈ editors ∧
  ∃ ps, Editor.list_projects env e = Ok ps ∧ p ∈ ps ∧
        path_exists env (parse_path (Project.path p)) = true ∧
        re_search env query (Project.name p) = Ok true.
Proof.
  intros Hls%mapM_Ok. rewrite elem_of_concat. split.
  - intros (l & Hl & Hp).
    apply list_elem_of_lookup in Hl as [i Hi].
    destruct (Forall2_lookup_r _ _ _ _ _ Hls Hi) as (e' & He' & Hpairs).
    apply editor_pairs_Ok in Hpairs as (ps & Hps & ->).
    apply list_elem_of_fmap in Hp as (p' & [= -> ->] & Hp).
    apply list_elem_of_filter in Hp as [Hm Hp].
    apply list_elem_of_filter in Hp as [Hx Hp].
    split; [by eapply list_elem_of_lookup_2|]. by exists ps.
  - intros (He & ps & Hps & Hp & Hx & Hm).
    apply list_elem_of_lookup in He as [i Hi].
    destruct (Forall2_lookup_l _ _ _ _ _ Hls Hi) as (l & Hl & Hpairs).
    exists l. split; [by eapply list_elem_of_lookup_2|].
    apply editor_pairs_Ok in Hpairs as (ps' & Hps' & ->).
    assert (ps' = ps) as -> by congruence.
    apply list_elem_of_fmap. exists p. split; [done|].
    apply list_elem_of_filter. split; [done|].
    by apply list_elem_of_filter.
Qed.

Lemma ranked_pairs_elem env self query res e p :
  KeywordQueryEventListener.ranked_pairs env self query = Ok res →
  (e, p) ∈ res →
  e ∈ KeywordQueryEventListener.editors self ∧
  ∃ ps, Editor.list_projects env e = Ok ps ∧ p ∈ ps ∧
        path_exists env (parse_path (Project.path p)) = true ∧
        re_search env query (Project.name p) = Ok true.
Proof.
  intros (ls & v & n & Hls & _ & _ & ->)%ranked_pairs_Ok Hin.
  apply (collected_elem _ _ _ _ _ _ Hls).
  destruct (slice_to_prefix n
              (sort_by_key_reverse KeywordQueryEventListener.pair_key
                 (concat ls))) as [k Hk].
  rewrite <-(sort_by_key_reverse_Permutation
               KeywordQueryEventListener.pair_key (concat ls)), Hk.
  apply elem_of_app. by left.
Qed.

(** X6.  Every item of a result bears the name of a project in which the
    query pattern was found; a query that [re] does not compile can only
    give the empty result. *)
Theorem result_names_match_query (env : Env)
    (self : KeywordQueryEventListener.t) (query : string)
    (items : list ExtensionResultItem) :
  KeywordQueryEventListener.on_event env self query = Ok items →
  Forall (λ it, re_search env query (item_name it) = Ok true) items ∧
  (re_valid env query = false → items = []).
Proof.
  rewrite on_event_unfold.
  destruct (KeywordQueryEventListener.ranked_pairs env self query)
    as [res|] eqn:Hres; [|done].
  intros [= <-].
  assert (Hall : Forall (λ it, re_search env query (item_name it) = Ok true)
                   (KeywordQueryEventListener.render <$> res)).
  { rewrite Forall_fmap. apply Forall_forall. intros [e p] Hin.
    by destruct (ranked_pairs_elem _ _ _ _ _ _ Hres Hin)
      as (_ & ps & _ & _ & _ & Hm). }
  split; [done|]. intros Hq.
  destruct (KeywordQueryEventListener.render <$> res) as [|it its]; [done|].
  inversion Hall as [|? ? Hit _]; subst.
  unfold re_search in Hit. by rewrite Hq in Hit.
Qed.

Lemma result_names_match_query_witness :
  let self := Demo.listener "/opt/bin" "10"
                [Demo.clion "/opt/bin/clion"; Demo.pycharm] in
  ∃ items,
    KeywordQueryEventListener.on_event Demo.demo_env self "D" = Ok items ∧
    item_name <$> items = ["d"] ∧
    Forall (λ it, re_search Demo.demo_env "D" (item_name it) = Ok true) items.
Proof.
  intros self.
  destruct (KeywordQueryEventListener.on_event Demo.demo_env self "D")
    as [items|] eqn:H; [|by vm_compute in H].
  exists items. split; [done|]. split.
  - vm_compute in H. injection H as <-. by vm_compute.
  - by apply (result_names_match_query Demo.demo_env self "D" items).
Defined.

Lemma slice_to_all {A} n (l : list A) :
  Z.of_nat (length l) ≤ n → slice_to n l = l.
Proof.
  intros Hn. unfold slice_to.
  rewrite (proj2 (Z.leb_le 0 n)) by lia. apply take_ge. lia.
Qed.

(** X7.  When the limit is not smaller than the number of collected pairs,
    nothing is lost: the result is the sorted list of all of them, and it
    holds exactly the projects of the listener's editors that exist on
    disk and in whose name the query is found. *)
Theorem result_complete_under_large_limit (env : Env)
    (self : KeywordQueryEventListener.t) (query : string)
    (merged : list (Editor.t * Project.t)) (v : string) (n : Z) :
  KeywordQueryEventListener.collect env query
    (KeywordQueryEventListener.editors self) [] = Ok merged →
  KeywordQueryEventListener.preferences self !! "item_limit" = Some v →
  int v = Ok n →
  Z.of_nat (length merged) ≤ n →
  KeywordQueryEventListener.ranked_pairs env self query
    = Ok (sort_by_key_reverse KeywordQueryEventListener.pair_key merged) ∧
  ∀ e p,
    (e, p) ∈ sort_by_key_reverse KeywordQueryEventListener.pair_key merged ↔
    e ∈ KeywordQueryEventListener.editors self ∧
    ∃ ps, Editor.list_projects env e = Ok ps ∧ p ∈ ps ∧
          path_exists env (parse_path (Project.path p)) = true ∧
          re_search env query (Project.name p) = Ok true.
Proof.
  intros Hm Hv Hn Hlen. rewrite collect_mapM in Hm.
  destruct (mapM _ _) as [ls|] eqn:Hls; [|done]. injection Hm as <-.
  split.
  - rewrite ranked_pairs_unfold, Hls, Hv, Hn. f_equal.
    apply slice_to_all.
    by rewrite (Permutation_length (sort_by_key_reverse_Permutation _ _)).
  - intros e p. rewrite sort_by_key_reverse_Permutation.
    by apply collected_elem.
Qed.

Lemma result_complete_under_large_limit_witness :
  let self := Demo.listener "/opt/bin" "10"
                [Demo.clion "/opt/bin/clion"; Demo.pycharm] in
  ∃ merged,
    KeywordQueryEventListener.collect Demo.demo_env ""
      (KeywordQueryEventListener.editors self) [] = Ok merged ∧
    length merged = 5%nat ∧
    KeywordQueryEventListener.ranked_pairs Demo.demo_env self ""
      = Ok (sort_by_key_reverse KeywordQueryEventListener.pair_key merged).
Proof.
  intros self.
  destruct (KeywordQueryEventListener.collect Demo.demo_env ""
              (KeywordQueryEventListener.editors self) [])
    as [merged|] eqn:Hm; [|by vm_compute in Hm].
  assert (Hlen : length merged = 5%nat).
  { vm_compute in Hm. injection Hm as <-. by vm_compute. }
  exists merged. split; [done|]. split; [done|].
  apply (result_complete_under_large_limit Demo.demo_env self "" merged "10" 10);
    [done|by vm_compute|by vm_compute|lia].
Defined.

(** ** Configuration loading *)

Lemma init_Ok env preferences self :
  KeywordQueryEventListener.__init__ env preferences = Ok self →
  ∃ path all,
    preferences !! "binaries" = Some path ∧
    Forall2 (λ d e, Editor.name e = d.1.1.1 ∧
                    Editor.config_dir_prefix e = d.1.2 ∧
                    Editor._find_binary env path d.2 = Ok (Editor.binary e))
            KeywordQueryEventListener.registry all ∧
    KeywordQueryEventListener.editors self =
      filter (λ e, KeywordQueryEventListener.installed e = true) all ∧
    KeywordQueryEventListener.preferences self = preferences.
Proof.
  intros H. unfold KeywordQueryEventListener.__init__ in H.
  apply bind_Ok in H as (path & Hpath & H).
  apply bind_Ok in H as (all & Hall & [= <-]).
  unfold getitem in Hpath.
  destruct (preferences !! "binaries") as [path'|]; [|done].
  injection Hpath as ->. exists path, all. split; [done|].
  split; [|done]. apply mapM_Ok in Hall.
  eapply Forall2_impl; [exact Hall|].
  intros [[[nm ic] pf] bs] e He.
  unfold KeywordQueryEventListener.make_editor, Editor.__init__ in He.
  by apply bind_Ok in He as (b & Hb & [= <-]).
Qed.

Lemma no_match_absolute env path binary :
  is_absolute (parse_path (path +:+ "/" +:+ binary)) = true →
  is_file env (parse_path (path +:+ "/" +:+ binary)) = false →
  Editor.no_match env path binary.
Proof.
  intros Habs Hf. exists (parse_path (path +:+ "/" +:+ binary)).
  split; [|done]. by apply expanduser_absolute.
Qed.

(** X9.  When no candidate binary of any editor is a regular file below
    the configured directory, the listener has no editor and every query,
    whatever its pattern, returns the empty list. *)
Theorem no_binary_no_result (env : Env) (preferences : gmap string string)
    (path : string) (self : KeywordQueryEventListener.t) :
  preferences !! "binaries" = Some path →
  Forall (λ d, Forall (Editor.no_match env path) d.2)
         KeywordQueryEventListener.registry →
  KeywordQueryEventListener.__init__ env preferences = Ok self →
  KeywordQueryEventListener.editors self = [] ∧
  ∀ query v n,
    preferences !! "item_limit" = Some v → int v = Ok n →
    KeywordQueryEventListener.on_event env self query = Ok [].
Proof.
  intros Hpath Hno (path' & all & Hpath' & Hall & Heds & Hprefs)%init_Ok.
  assert (path' = path) as -> by congruence.
  assert (Hempty : KeywordQueryEventListener.editors self = []).
  { rewrite Heds. clear Heds.
    induction Hall as [|d e ds es (_ & _ & Hb) _ IH]; [done|].
    inversion Hno as [|? ? Hd Hds]; subst.
    apply find_binary_None in Hd. rewrite Hb in Hd. injection Hd as Hd.
    rewrite filter_cons_False.
    - by apply IH.
    - unfold KeywordQueryEventListener.installed. by rewrite Hd. }
  split; [done|]. intros query v n Hv Hn.
  rewrite on_event_unfold, ranked_pairs_unfold, Hempty, Hprefs.
  cbn [mapM concat]. rewrite Hv, Hn.
  unfold slice_to, sort_by_key_reverse. cbn [sorted length].
  by destruct (0 <=? n); rewrite take_nil.
Qed.

Lemma no_binary_no_result_witness :
  ∃ self,
    KeywordQueryEventListener.__init__ Demo.demo_env (Demo.prefs "/usr/bin" "10")
      = Ok self ∧
    KeywordQueryEventListener.editors self = [] ∧
    KeywordQueryEventListener.on_event Demo.demo_env self "(" = Ok [].
Proof.
  destruct (KeywordQueryEventListener.__init__ Demo.demo_env
              (Demo.prefs "/usr/bin" "10")) as [self|] eqn:H;
    [|by vm_compute in H].
  exists self. split; [done|].
  destruct (no_binary_no_result Demo.demo_env (Demo.prefs "/usr/bin" "10")
              "/usr/bin" self) as [Hempty Hquery].
  - by vm_compute.
  - repeat (constructor;
              [repeat (constructor; [apply no_match_absolute; by vm_compute|]);
               constructor|]).
    constructor.
  - done.
  - split; [done|]. apply (Hquery "(" "10" 10); by vm_compute.
Defined.

(** X10.  For a listener built by [__init__], the launch command of every
    item is the binary of its editor, a space, and the project path shown
    as description; the binary names a regular file and the project path
    exists. *)
Theorem launch_command_well_formed (env : Env)
    (preferences : gmap string string) (self : KeywordQueryEventListener.t)
    (query : string) (items : list ExtensionResultItem) :
  KeywordQueryEventListener.__init__ env preferences = Ok self →
  KeywordQueryEventListener.on_event env self query = Ok items →
  Forall (λ it, ∃ b,
    item_on_enter it = b +:+ " " +:+ item_description it ∧
    is_file env (parse_path b) = true ∧
    path_exists env (parse_path (item_description it)) = true) items.
Proof.
  intros (path & all & _ & Hall & Heds & _)%init_Ok. rewrite on_event_unfold.
  destruct (KeywordQueryEventListener.ranked_pairs env self query)
    as [res|] eqn:Hres; [|done].
  intros [= <-]. rewrite Forall_fmap. apply Forall_forall. intros [e p] Hin.
  destruct (ranked_pairs_elem _ _ _ _ _ _ Hres Hin) as (He & ps & _ & _ & Hx & _).
  rewrite Heds in He. apply list_elem_of_filter in He as [Hinst He].
  apply list_elem_of_lookup in He as [i Hi].
  destruct (Forall2_lookup_r _ _ _ _ _ Hall Hi) as (d & _ & _ & _ & Hb).
  unfold KeywordQueryEventListener.installed in Hinst. simpl.
  destruct (Editor.binary e) as [b|]; [|done].
  exists b. split; [done|]. split; [|done]. by eapply find_binary_is_file.
Qed.

Lemma launch_command_well_formed_witness :
  ∃ self items,
    KeywordQueryEventListener.__init__ Demo.demo_env (Demo.prefs "~/bin" "1")
      = Ok self ∧
    KeywordQueryEventListener.on_event Demo.demo_env self "" = Ok items ∧
    item_on_enter <$> items = ["/home/u/bin/clion /home/u/proj/c"] ∧
    Forall (λ it, ∃ b,
      item_on_enter it = b +:+ " " +:+ item_description it ∧
      is_file Demo.demo_env (parse_path b) = true ∧
      path_exists Demo.demo_env (parse_path (item_description it)) = true)
      items.
Proof.
  destruct (KeywordQueryEventListener.__init__ Demo.demo_env
              (Demo.prefs "~/bin" "1")) as [self|] eqn:H;
    [|by vm_compute in H].
  destruct (KeywordQueryEventListener.on_event Demo.demo_env self "")
    as [items|] eqn:Hi.
  2:{ vm_compute in H. injection H as <-. by vm_compute in Hi. }
  exists self, items. split; [done|]. split; [done|]. split.
  - vm_compute in H. injection H as <-. vm_compute in Hi.
    injection Hi as <-. by vm_compute.
  - by apply (launch_command_well_formed Demo.demo_env
                (Demo.prefs "~/bin" "1") self "" items).
Defined.

(** ** Failures of a query *)

(** X12.  The failure of one editor fails the whole query: when the
    history of an editor cannot be read, and the editors before it were
    scanned without error, the handler raises that editor's exception,
    whatever the other editors hold. *)
Theorem first_failing_editor_fails_query (env : Env)
    (self : KeywordQueryEventListener.t) (query : string)
    (before after : list Editor.t) (editor : Editor.t) (e : exn) :
  KeywordQueryEventListener.editors self = before ++ editor :: after →
  Forall (λ e', ∃ l, KeywordQueryEventListener.editor_pairs env query e' = Ok l)
         before →
  Editor.list_projects env editor = Raise e →
  KeywordQueryEventListener.on_event env self query = Raise e.
Proof.
  intros Heds Hbefore He.
  rewrite on_event_unfold, ranked_pairs_unfold, Heds.
  rewrite (mapM_first_Raise _ _ _ editor e); [done|done|].
  unfold KeywordQueryEventListener.editor_pairs. by rewrite He.
Qed.

Lemma first_failing_editor_fails_query_witness :
  KeywordQueryEventListener.on_event Demo.demo_env
    (Demo.listener "/opt/bin" "10"
       [Demo.clion "/opt/bin/clion"; Demo.rider; Demo.pycharm]) ""
    = Raise ValueError.
Proof.
  apply (first_failing_editor_fails_query Demo.demo_env _ ""
           [Demo.clion "/opt/bin/clion"] [Demo.pycharm] Demo.rider ValueError).
  - done.
  - repeat constructor. eexists. by vm_compute.
  - by vm_compute.
Defined.

(** X13.  A query whose scan succeeds raises [KeyError] when the
    preferences hold no result limit; loading a configuration without a
    directory of binaries raises [KeyError]. *)
Theorem missing_preference_raises_KeyError (env : Env) :
  (∀ preferences,
     preferences !! "binaries" = None →
     KeywordQueryEventListener.__init__ env preferences = Raise KeyError) ∧
  (∀ self query merged,
     KeywordQueryEventListener.collect env query
       (KeywordQueryEventListener.editors self) [] = Ok merged →
     KeywordQueryEventListener.preferences self !! "item_limit" = None →
     KeywordQueryEventListener.on_event env self query = Raise KeyError).
Proof.
  split.
  - intros preferences H. unfold KeywordQueryEventListener.__init__, getitem.
    by rewrite H.
  - intros self query merged Hm Hv. rewrite collect_mapM in Hm.
    rewrite on_event_unfold, ranked_pairs_unfold.
    destruct (mapM _ _) as [ls|]; [|done]. by rewrite Hv.
Qed.

Lemma missing_preference_raises_KeyError_witness :
  KeywordQueryEventListener.__init__ Demo.demo_env {[ "item_limit" := "10" ]}
    = Raise KeyError ∧
  KeywordQueryEventListener.on_event Demo.demo_env
    {| KeywordQueryEventListener.preferences := {[ "binaries" := "~/bin" ]};
       KeywordQueryEventListener.editors := [Demo.clion "/home/u/bin/clion"] |}
    "" = Raise KeyError.
Proof.
  destruct (missing_preference_raises_KeyError Demo.demo_env) as [Hinit Hquery].
  split.
  - apply Hinit. by vm_compute.
  - destruct (KeywordQueryEventListener.collect Demo.demo_env ""
                [Demo.clion "/home/u/bin/clion"] []) as [merged|] eqn:Hm;
      [|by vm_compute in Hm].
    apply (Hquery _ "" merged); [done|by vm_compute].
Defined.

(** ** The limit *)

Lemma slice_to_length_exact {A} n (l : list A) :
  Z.of_nat (length (slice_to n l)) =
  if 0 <=? n then Z.min n (Z.of_nat (length l))
  else Z.max 0 (Z.of_nat (length l) + n).
Proof.
  unfold slice_to. destruct (0 <=? n) eqn:E; rewrite length_take.
  - apply Z.leb_le in E. lia.
  - apply Z.leb_gt in E. lia.
Qed.

(** X14.  The number of results: with a limit [n] that is not negative, the
    smaller of [n] and the number of collected pairs; with a negative
    limit, the number of collected pairs less [-n], or none.  In each case
    the result is the beginning of the sorted list. *)
Theorem result_length (env : Env) (self : KeywordQueryEventListener.t)
    (query : string) (merged : list (Editor.t * Project.t)) (v : string)
    (n : Z) :
  KeywordQueryEventListener.collect env query
    (KeywordQueryEventListener.editors self) [] = Ok merged →
  KeywordQueryEventListener.preferences self !! "item_limit" = Some v →
  int v = Ok n →
  ∃ items res,
    KeywordQueryEventListener.on_event env self query = Ok items ∧
    items = KeywordQueryEventListener.render <$> res ∧
    res `prefix_of`
      sort_by_key_reverse KeywordQueryEventListener.pair_key merged ∧
    Z.of_nat (length items) =
      if 0 <=? n then Z.min n (Z.of_nat (length merged))
      else Z.max 0 (Z.of_nat (length merged) + n).
Proof.
  intros Hm Hv Hn. rewrite collect_mapM in Hm.
  rewrite on_event_unfold, ranked_pairs_unfold.
  destruct (mapM _ _) as [ls|]; [|done]. injection Hm as <-.
  rewrite Hv, Hn. eexists _, _. split; [done|]. split; [done|].
  split; [apply slice_to_prefix|].
  rewrite length_fmap, slice_to_length_exact.
  by rewrite (Permutation_length (sort_by_key_reverse_Permutation _ _)).
Qed.

Lemma result_length_witness :
  let clion := Demo.clion "/home/u/bin/clion" in
  (∃ items,
     KeywordQueryEventListener.on_event Demo.demo_env
       (Demo.listener "~/bin" "-1" [clion]) "" = Ok items ∧
     item_name <$> items = ["c"; "a"] ∧
     Z.of_nat (length items) = 2) ∧
  KeywordQueryEventListener.on_event Demo.demo_env
    (Demo.listener "~/bin" "0" [clion]) "" = Ok [] ∧
  KeywordQueryEventListener.on_event Demo.demo_env
    (Demo.listener "~/bin" "-7" [clion]) "" = Ok [].
Proof.
  intros clion.
  destruct (KeywordQueryEventListener.collect Demo.demo_env "" [clion] [])
    as [merged|] eqn:Hm; [|by vm_compute in Hm].
  split; [|split; by vm_compute].
  destruct (result_length Demo.demo_env (Demo.listener "~/bin" "-1" [clion])
              "" merged "-1" (-1) Hm) as (items & res & Hi & _ & _ & Hlen);
    [by vm_compute|by vm_compute|].
  exists items. split; [done|]. split.
  - vm_compute in Hi. injection Hi as <-. by vm_compute.
  - rewrite Hlen. vm_compute in Hm. injection Hm as <-. by vm_compute.
Defined.

(** ** Configuration generations *)

(** X15.  Only the greatest configuration directory is consulted: when it
    holds no history file, the editor has no project, whatever the other
    directories hold. *)
Theorem latest_generation_without_history (env : Env) (self : Editor.t)
    (d : PurePath) (dirs : list PurePath) :
  glob_prefix env (Editor.config_dir env) (Editor.config_dir_prefix self)
    = d :: dirs →
  stat env (joinpath (joinpath (Editor.latest d dirs) "options")
                     "recentProjects.xml") = inl ENOENT →
  Editor.list_projects env self = Ok [] ∧
  ∀ query, KeywordQueryEventListener.editor_pairs env query self = Ok [].
Proof.
  intros Hglob Hstat.
  assert (H : Editor.list_projects env self = Ok []).
  { unfold Editor.list_projects. rewrite Hglob.
    apply parse_recent_projects_missing_or_malformed. by left. }
  split; [done|]. intros query.
  unfold KeywordQueryEventListener.editor_pairs. by rewrite H.
Qed.

Lemma latest_generation_without_history_witness :
  let clion := Demo.clion "/opt/bin/clion" in
  path_str <$> glob_prefix Fixtures.upgraded_env
                 (Editor.config_dir Fixtures.upgraded_env)
                 (Editor.config_dir_prefix clion)
    = ["/home/u/.config/JetBrains/CLion2023.2";
       "/home/u/.config/JetBrains/CLion2024.1"] ∧
  fmap (M := result) (fmap Project.name) (Editor._parse_recent_projects Fixtures.upgraded_env
    (parse_path "/home/u/.config/JetBrains/CLion2023.2/options/recentProjects.xml"))
    = Ok ["a"; "b"; "c"] ∧
  Editor.list_projects Fixtures.upgraded_env clion = Ok [].
Proof.
  intros clion. split; [by vm_compute|]. split; [by vm_compute|].
  destruct (glob_prefix Fixtures.upgraded_env
              (Editor.config_dir Fixtures.upgraded_env)
              (Editor.config_dir_prefix clion)) as [|d dirs] eqn:Hg;
    [by vm_compute in Hg|].
  apply (latest_generation_without_history Fixtures.upgraded_env clion d dirs Hg).
  vm_compute in Hg. injection Hg as <- <-. by vm_compute.
Defined.

(** ** Any order of the editors *)

Lemma mapM_Permutation {A B} (f : A → result (list B)) (l l' : list A) ls :
  l ≡ₚ l' → mapM f l = Ok ls →
  ∃ ls', mapM f l' = Ok ls' ∧ concat ls ≡ₚ concat ls'.
Proof.
  intros Hp. revert ls.
  induction Hp as [|x l l' Hp IH|x y l|l l' l'' Hp1 IH1 Hp2 IH2]; intros ls.
  - intros [= <-]. by exists [].
  - simpl. destruct (f x) as [u|]; simpl; [|done].
    destruct (mapM f l) as [r|] eqn:Er; simpl; [|done]. intros [= <-].
    destruct (IH r eq_refl) as (r' & -> & Hr'). simpl.
    exists (u :: r'). split; [done|]. simpl. by rewrite Hr'.
  - simpl. destruct (f y) as [u|]; simpl; [|done].
    destruct (f x) as [w|]; simpl; [|done].
    destruct (mapM f l) as [r|]; simpl; [|done]. intros [= <-].
    exists (w :: u :: r). split; [done|]. simpl.
    rewrite !app_assoc. f_equiv. apply Permutation_app_comm.
  - intros H1. destruct (IH1 _ H1) as (ls' & H' & Hp').
    destruct (IH2 _ H') as (ls'' & H'' & Hp'').
    exists ls''. split; [done|]. by rewrite Hp'.
Qed.

Lemma NoDup_fmap_eq {A B} (f : A → B) (l : list A) x y :
  NoDup (f <$> l) → x ∈ l → y ∈ l → f x = f y → x = y.
Proof.
  induction l as [|a l IH]; [by intros _ ?%elem_of_nil|].
  rewrite fmap_cons. intros [Ha Hl]%NoDup_cons Hx Hy Hxy.
  apply elem_of_cons in Hx as [->|Hx]; apply elem_of_cons in Hy as [->|Hy].
  - done.
  - destruct Ha. rewrite Hxy. by apply list_elem_of_fmap_2.
  - destruct Ha. rewrite <-Hxy. by apply list_elem_of_fmap_2.
  - by apply IH.
Qed.

Lemma sort_by_key_reverse_Permutation_eq {A} (key : A → Z) (l1 l2 : list A) :
  l1 ≡ₚ l2 → NoDup (key <$> l1) →
  sort_by_key_reverse key l1 = sort_by_key_reverse key l2.
Proof.
  intros Hp Hnd.
  apply (StronglySorted_unique_strong (λ a b, key b ≤ key a)).
  - intros x y Hx Hy ? ?.
    rewrite sort_by_key_reverse_Permutation in Hx, Hy. rewrite <-Hp in Hy.
    apply (NoDup_fmap_eq key l1); [done..|lia].
  - apply sort_by_key_reverse_sorted.
  - apply sort_by_key_reverse_sorted.
  - by rewrite !sort_by_key_reverse_Permutation.
Qed.

(** X16.  For any two orders of the same editors, a query that succeeds in
    one order succeeds in the other with the same sequence of time stamps,
    and with the same result when the collected projects have distinct
    time stamps. *)
Theorem ranking_under_permuted_editors (env : Env)
    (preferences : gmap string string) (editors editors' : list Editor.t)
    (query : string) (res : list (Editor.t * Project.t)) :
  editors ≡ₚ editors' →
  KeywordQueryEventListener.ranked_pairs env
    {| KeywordQueryEventListener.preferences := preferences;
       KeywordQueryEventListener.editors := editors |} query = Ok res →
  ∃ res',
    KeywordQueryEventListener.ranked_pairs env
      {| KeywordQueryEventListener.preferences := preferences;
         KeywordQueryEventListener.editors := editors' |} query = Ok res' ∧
    KeywordQueryEventListener.pair_key <$> res =
      KeywordQueryEventListener.pair_key <$> res' ∧
    (∀ merged,
       KeywordQueryEventListener.collect env query editors [] = Ok merged →
       NoDup (KeywordQueryEventListener.pair_key <$> merged) →
       res = res').
Proof.
  intros Hp (ls & v & n & Hls & Hv & Hn & ->)%ranked_pairs_Ok.
  cbn [KeywordQueryEventListener.editors
       KeywordQueryEventListener.preferences] in *.
  destruct (mapM_Permutation _ _ _ _ Hp Hls) as (ls' & Hls' & Hc).
  eexists. split; [|split].
  - rewrite ranked_pairs_unfold.
    cbn [KeywordQueryEventListener.editors
         KeywordQueryEventListener.preferences].
    by rewrite Hls', Hv, Hn.
  - rewrite !slice_to_fmap. f_equal. by apply sort_by_key_reverse_keys.
  - intros merged Hm Hnd. rewrite collect_mapM, Hls in Hm.
    injection Hm as <-. f_equal.
    by apply sort_by_key_reverse_Permutation_eq.
Qed.

Lemma ranking_under_permuted_editors_witness :
  let x := Demo.x_editor in
  let c := Demo.clion "/opt/bin/clion" in
  let y := Demo.y_editor in
  ∃ res res',
    KeywordQueryEventListener.ranked_pairs Demo.demo_env
      {| KeywordQueryEventListener.preferences := Demo.prefs "/opt/bin" "3";
         KeywordQueryEventListener.editors := [x; c; y] |} "" = Ok res ∧
    KeywordQueryEventListener.ranked_pairs Demo.demo_env
      {| KeywordQueryEventListener.preferences := Demo.prefs "/opt/bin" "3";
         KeywordQueryEventListener.editors := [y; c; x] |} "" = Ok res' ∧
    KeywordQueryEventListener.pair_key <$> res = [200; 100; 50] ∧
    KeywordQueryEventListener.pair_key <$> res =
      KeywordQueryEventListener.pair_key <$> res' ∧
    res = res'.
Proof.
  intros x c y.
  destruct (KeywordQueryEventListener.ranked_pairs Demo.demo_env
      {| KeywordQueryEventListener.preferences := Demo.prefs "/opt/bin" "3";
         KeywordQueryEventListener.editors := [x; c; y] |} "")
    as [res|] eqn:Hres; [|by vm_compute in Hres].
  destruct (ranking_under_permuted_editors Demo.demo_env
              (Demo.prefs "/opt/bin" "3") [x; c; y] [y; c; x] "" res)
    as (res' & Hres' & Hkeys & Heq); [|done|].
  { exact (Permutation_rev [x; c; y]). }
  exists res, res'. split; [done|]. split; [done|]. split.
  { vm_compute in Hres. injection Hres as <-. by vm_compute. }
  split; [done|].
  destruct (KeywordQueryEventListener.collect Demo.demo_env "" [x; c; y] [])
    as [merged|] eqn:Hm; [|by vm_compute in Hm].
  apply (Heq merged); [done|].
  vm_compute in Hm. injection Hm as <-.
  change (NoDup [2; 100; 50; 200]). apply (bool_decide_unpack _). by vm_compute.
Defined.
